(** * kairu: the ACS container reader, its image codec and branch selection

    A shallow embedding of the parts of [kairu] that decode a Microsoft Agent
    character file: [buffer.py] (the cursor over a byte view),
    [_image_decompression.py] (the bit-level LZ codec and the image
    reconstruction) and [structs.py] (palette conversion, branch selection,
    animation records).

    Python integers are [Z].  A Python exception is a value of [exn]; a
    computation that may raise returns a [result].  Objects that the source
    mutates in place (the bit stream's read position, a [Buffer]'s [pos]) are
    threaded through a small state-and-exception monad. *)

From Stdlib Require Import ZArith List Lia Bool.
From stdpp Require Import base list.
Import ListNotations.
Local Open Scope Z_scope.

(** ** Exceptions and the state-and-exception monad *)

(** The first five constructors are the Python exceptions the modelled code can
    raise.  [OutOfFuel] belongs to the model only: it is what a fuelled loop
    answers when its fuel is used up, and [decompress_terminates] shows that
    [decompress] never answers it. *)
Inductive exn : Type :=
  | ReadError | IndexError | AssertionError | ValueError | NotImplementedError
  | OutOfFuel.

Inductive result (A : Type) : Type :=
  | Ok (a : A)
  | Raise (e : exn).
Arguments Ok {A} a.
Arguments Raise {A} e.

Definition M (S A : Type) : Type := S -> result (A * S).

Definition ret {S A} (a : A) : M S A := fun s => Ok (a, s).
Definition raise {S A} (e : exn) : M S A := fun _ => Raise e.
Definition bind {S A B} (m : M S A) (k : A -> M S B) : M S B :=
  fun s => match m s with
           | Ok (a, s') => k a s'
           | Raise e => Raise e
           end.
Definition lift {S A} (r : result A) : M S A :=
  fun s => match r with Ok a => Ok (a, s) | Raise e => Raise e end.

Declare Scope py_scope.
Delimit Scope py_scope with py.
Notation "x <- m ;; k" := (bind m (fun x => k))
  (at level 20, m at level 99, k at level 200, only parsing) : py_scope.
Local Open Scope py_scope.

(** ** Python sequences *)

Module Py.

(** [l[i]] for an integer index: a negative index counts from the end, an
    index outside [-len, len) raises [IndexError]. *)
Definition index {A} (l : list A) (i : Z) : result nat :=
  let n := Z.of_nat (length l) in
  let j := if i <? 0 then i + n else i in
  if (0 <=? j) && (j <? n) then Ok (Z.to_nat j) else Raise IndexError.

Definition getitem {A} (l : list A) (i : Z) : result A :=
  match index l i with
  | Ok j => match l !! j with Some v => Ok v | None => Raise IndexError end
  | Raise e => Raise e
  end.

Definition setitem {A} (l : list A) (i : Z) (v : A) : result (list A) :=
  match index l i with
  | Ok j => Ok (<[j := v]> l)
  | Raise e => Raise e
  end.

(** A slice bound is clamped, never out of range. *)
Definition clamp (len i : Z) : Z :=
  if i <? 0 then Z.max (i + len) 0 else Z.min i len.

(** [l[lo:hi]] *)
Definition slice {A} (l : list A) (lo hi : Z) : list A :=
  let n := Z.of_nat (length l) in
  let a := clamp n lo in
  let b := clamp n hi in
  take (Z.to_nat (b - a)) (drop (Z.to_nat a) l).

End Py.

(** ** [buffer.py] *)

(** A [memoryview]: the window [mv_start, mv_stop) on the bytes object
    [mv_obj].  Slicing a view gives another window on the same object; no
    byte is copied. *)
Record memoryview : Type := MemoryView {
  mv_obj : list Z;
  mv_start : Z;
  mv_stop : Z
}.

(** [memoryview(buf)] *)
Definition memoryview_of (buf : list Z) : memoryview :=
  {| mv_obj := buf; mv_start := 0; mv_stop := Z.of_nat (length buf) |}.

(** [bytes(v)]: the bytes the view shows. *)
Definition mv_bytes (v : memoryview) : list Z :=
  Py.slice (mv_obj v) (mv_start v) (mv_stop v).

(** [len(v)] *)
Definition mv_len (v : memoryview) : Z := Z.of_nat (length (mv_bytes v)).

(** [v[i]] *)
Definition mv_getitem (v : memoryview) (i : Z) : result Z :=
  Py.getitem (mv_bytes v) i.

(** [v[lo:hi]] *)
Definition mv_slice (v : memoryview) (lo hi : Z) : memoryview :=
  let a := Py.clamp (mv_len v) lo in
  let b := Py.clamp (mv_len v) hi in
  {| mv_obj := mv_obj v;
     mv_start := mv_start v + a;
     mv_stop := mv_start v + Z.max a b |}.

(** [int.from_bytes(b, 'little', signed=signed)] *)
Fixpoint from_little_endian (b : list Z) : Z :=
  match b with
  | [] => 0
  | x :: b' => x + 256 * from_little_endian b'
  end.

Definition int_from_bytes (b : list Z) (signed : bool) : Z :=
  let u := from_little_endian b in
  let bits := 8 * Z.of_nat (length b) in
  if signed && (0 <? bits) && (2 ^ (bits - 1) <=? u) then u - 2 ^ bits else u.

(** [for _ in range(n)] collecting what [m] returns. *)
Fixpoint repeatM {S A} (n : nat) (m : M S A) : M S (list A) :=
  match n with
  | O => ret []
  | S n' => x <- m ;; xs <- repeatM n' m ;; ret (x :: xs)
  end.

(** A Python [str], as its code points. *)
Definition str : Type := list Z.

Module Buffer.

Record t : Type := Make {
  mv : memoryview;
  _root : memoryview;
  _abs_offset : Z;
  pos : Z
}.

(** [Buffer(mv, root, abs_offset)], with [pos] at its default 0. *)
Definition __init__ (mv root : memoryview) (abs_offset : Z) : t :=
  {| mv := mv; _root := root; _abs_offset := abs_offset; pos := 0 |}.

Definition __len__ (self : t) : Z := mv_len (mv self).

Definition set_pos (self : t) (p : Z) : t :=
  {| mv := mv self; _root := _root self; _abs_offset := _abs_offset self;
     pos := p |}.

Definition skip (count : Z) : M t unit :=
  fun self => Ok (tt, set_pos self (pos self + count)).

Definition read : M t Z :=
  fun self =>
    match mv_getitem (mv self) (pos self) with
    | Ok data => Ok (data, set_pos self (pos self + 1))
    | Raise e => Raise e
    end.

Definition read_bytes (length : Z) : M t memoryview :=
  fun self =>
    let data := mv_slice (mv self) (pos self) (pos self + length) in
    Ok (data, set_pos self (pos self + length)).

Definition read_integer (length : Z) (signed : bool) : M t Z :=
  data <- read_bytes length ;; ret (int_from_bytes (mv_bytes data) signed).

Definition read_ushort : M t Z := read_integer 2 false.
Definition read_ulong : M t Z := read_integer 4 false.

Definition read_string : M t str :=
  length <- read_ulong ;;
  string <- repeatM (Z.to_nat length) read_ushort ;;
  if 0 <? length then (_ <- skip 2 ;; ret string) else ret string.

(** An element reader is one of two kinds: its signature has an argument
    named [length] or it has not.  [inspect.getfullargspec] tells the two
    apart, [has_length_arg]. *)
Inductive elem_reader (A : Type) : Type :=
  | Reader (f : M t A)
  | ReaderWithLength (f : Z -> M t A).
Arguments Reader {A} f.
Arguments ReaderWithLength {A} f.

Definition has_length_arg {A} (r : elem_reader A) : bool :=
  match r with Reader _ => false | ReaderWithLength _ => true end.

(** The call in [_read_list]: [elem_reader(self, length=length)] if
    [has_length_arg], else [elem_reader(self)]. *)
Definition call {A} (r : elem_reader A) (length : Z) : M t A :=
  match r with Reader f => f | ReaderWithLength f => f length end.

Definition _read_list {A} (r : elem_reader A) (length : Z) : M t (list A) :=
  if length >=? 65536 then raise ValueError
  else repeatM (Z.to_nat length) (call r length).

Inductive count_type : Type := byte | ushort | ulong.

Definition read_count (c : count_type) : M t Z :=
  match c with
  | byte => read
  | ushort => read_ushort
  | ulong => read_ulong
  end.

Definition read_list {A} (r : elem_reader A) (c : count_type)
  (limit : option Z) : M t (list A) :=
  length <- read_count c ;;
  let length := match limit with
                | Some limit => Z.min limit length
                | None => length
                end in
  _read_list r length.

Definition locator (sized : bool) : M t t :=
  address <- read_ulong ;;
  size <- read_ulong ;;
  fun self =>
    let root := _root self in
    if address + size >? mv_len root then Raise IndexError
    else if sized
         then Ok (__init__ (mv_slice root address (address + size))
                           root address, self)
         else Ok (__init__ (mv_slice root address (mv_len root))
                           root address, self).

End Buffer.

(** ** [_image_decompression.py] *)

(** A [_BitStream] over [data] is the list of the bits not read yet, each byte
    most significant bit first; [stream.pos < len(stream)] is "the list is not
    empty". *)
Definition bitstream : Type := list bool.

Definition byte_bits (b : Z) : list bool :=
  map (fun i => Z.testbit b (Z.of_nat i)) [7; 6; 5; 4; 3; 2; 1; 0]%nat.

Definition BitStream (data : list Z) : bitstream := flat_map byte_bits data.

(** [self.read('uint:1')] and [self.read('bool')]: reading at the end raises
    bitstring's [ReadError]. *)
Definition read_bool : M bitstream bool :=
  fun s => match s with
           | [] => Raise ReadError
           | b :: s' => Ok (b, s')
           end.

Definition read_uint1 : M bitstream Z :=
  b <- read_bool ;; ret (Z.b2z b).

Fixpoint read_rev_loop (count : nat) (offset v : Z) : M bitstream Z :=
  match count with
  | O => ret v
  | S count' =>
      b <- read_uint1 ;;
      read_rev_loop count' (offset + 1) (Z.lor v (Z.shiftl b offset))
  end.

Definition read_rev (count : Z) : M bitstream Z :=
  read_rev_loop (Z.to_nat count) 0 0.

Fixpoint count_ones_loop (limit : nat) (count : Z) : M bitstream Z :=
  match limit with
  | O => ret count
  | S limit' =>
      b <- read_bool ;;
      if b then count_ones_loop limit' (count + 1) else ret count
  end.

Definition count_consecutive_ones (limit : Z) : M bitstream Z :=
  count_ones_loop (Z.to_nat limit) 0.

Definition _VALUE_BIT_COUNT : list Z := [6; 9; 12; 20].
Definition _OFFSET_TO_ADD : list Z := [1; 65; 577; 4673].

Definition _reverse_bits (b : Z) : Z :=
  let b := Z.lor (Z.land (Z.shiftr b 4) 15) (Z.land (Z.shiftl b 4) 240) in
  let b := Z.lor (Z.land (Z.shiftr b 2) 51) (Z.land (Z.shiftl b 2) 204) in
  let b := Z.lor (Z.land (Z.shiftr b 1) 85) (Z.land (Z.shiftl b 1) 170) in
  b.

(** The local variables of [decompress] that the loop updates. *)
Record locals : Type := Locals {
  out : list Z;
  out_pos : Z;
  total_decoded_count : Z
}.

(** [for i in range(n): out[out_pos + i] = out[source_idx + i]], started at
    [i]: one byte at a time, each read seeing the writes before it. *)
Fixpoint copy_loop (n : nat) (i : Z) (o : list Z) (out_pos source_idx : Z)
  : result (list Z) :=
  match n with
  | O => Ok o
  | S n' =>
      match Py.getitem o (source_idx + i) with
      | Ok v =>
          match Py.setitem o (out_pos + i) v with
          | Ok o' => copy_loop n' (i + 1) o' out_pos source_idx
          | Raise e => Raise e
          end
      | Raise e => Raise e
      end
  end.

(** How one pass through the body of the [while] loop ends. *)
Inductive flow : Type :=
  | Continue (l : locals)
  | Break (l : locals).

Definition loop_body (l : locals) : M bitstream flow :=
  flag <- read_bool ;;
  if negb flag then
    byte <- read_rev 8 ;;
    o <- lift (Py.setitem (out l) (out_pos l) byte) ;;
    ret (Continue {| out := o;
                     out_pos := out_pos l + 1;
                     total_decoded_count := total_decoded_count l + 1 |})
  else
    let bytes_to_be_decoded := 2 in
    seq_bits_1 <- count_consecutive_ones 3 ;;
    val_bit_count <- lift (Py.getitem _VALUE_BIT_COUNT seq_bits_1) ;;
    offset <- read_rev val_bit_count ;;
    if (val_bit_count =? 20) && (offset =? 1048575) then ret (Break l)
    else
      let bytes_to_be_decoded :=
        if val_bit_count =? 20 then bytes_to_be_decoded + 1
        else bytes_to_be_decoded in
      bias <- lift (Py.getitem _OFFSET_TO_ADD seq_bits_1) ;;
      let offset := offset + bias in
      seq_bits_2 <- count_consecutive_ones 12 ;;
      if seq_bits_2 =? 12 then raise AssertionError
      else
        let add1 := Z.shiftl 1 seq_bits_2 - 1 in
        add2 <- read_rev seq_bits_2 ;;
        let bytes_to_be_decoded := bytes_to_be_decoded + add1 + add2 in
        let source_idx := total_decoded_count l - offset in
        o <- lift (copy_loop (Z.to_nat bytes_to_be_decoded) 0 (out l)
                             (out_pos l) source_idx) ;;
        ret (Continue
               {| out := o;
                  out_pos := out_pos l + bytes_to_be_decoded;
                  total_decoded_count :=
                    total_decoded_count l + bytes_to_be_decoded |}).

(** [return out[:total_decoded_count]] *)
Definition finish (l : locals) : list Z :=
  Py.slice (out l) 0 (total_decoded_count l).

(** [while stream.pos < len(stream): ...].  Every pass reads at least one bit,
    so fuel above the number of unread bits is never used up. *)
Fixpoint decode_loop (fuel : nat) (l : locals) (s : bitstream)
  : result (list Z) :=
  match s with
  | [] => Ok (finish l)
  | _ :: _ =>
      match fuel with
      | O => Raise OutOfFuel
      | S fuel' =>
          match loop_body l s with
          | Ok (Continue l', s') => decode_loop fuel' l' s'
          | Ok (Break l', _) => Ok (finish l')
          | Raise e => Raise e
          end
      end
  end.

(** [np.zeros(buffer_size, dtype=np.uint8)] refuses a negative size. *)
Definition np_zeros (size : Z) : result (list Z) :=
  if size <? 0 then Raise ValueError else Ok (replicate (Z.to_nat size) 0).

Definition decompress (data : list Z) (buffer_size : Z) : result (list Z) :=
  let data := map _reverse_bits data in
  let stream := BitStream data in
  match np_zeros buffer_size with
  | Raise e => Raise e
  | Ok o =>
      let l := {| out := o; out_pos := 0; total_decoded_count := 0 |} in
      match read_rev 8 stream with
      | Raise e => Raise e
      | Ok (_, stream) => decode_loop (length stream) l stream
      end
  end.

Module Np.

(** The rows of a one-dimensional array read as [h] rows of [w] entries. *)
Fixpoint rows (h w : nat) (a : list Z) : list (list Z) :=
  match h with
  | O => []
  | S h' => take w a :: rows h' w (drop w a)
  end.

(** [a.reshape((h, w))]: the sizes must agree.  The dimensions here are
    never negative (numpy's inference from [-1] is not modelled). *)
Definition reshape (a : list Z) (h w : Z) : result (list (list Z)) :=
  if (h <? 0) || (w <? 0) then Raise ValueError
  else if Z.of_nat (length a) =? h * w
       then Ok (rows (Z.to_nat h) (Z.to_nat w) a)
       else Raise ValueError.

(** [np.flip(m, axis=0)] *)
Definition flip0 (m : list (list Z)) : list (list Z) := reverse m.

End Np.

Definition decompress_paletted_image
  (data : list Z) (size : Z * Z) (compressed : bool) (extra_width : Z)
  : result (list (list Z)) :=
  let w := fst size + extra_width in
  let h := snd size in
  match (if compressed then decompress data (Z.land (w + 3) 0xfc * h)
         else Ok data) with
  | Raise e => Raise e
  | Ok decompressed =>
      let expected_len := w * h in
      let decompressed :=
        if Z.of_nat (length decompressed) >? expected_len
        then Py.slice decompressed 0 expected_len
        else decompressed in
      match Np.reshape decompressed h w with
      | Ok m => Ok (Np.flip0 m)
      | Raise e => Raise e
      end
  end.

(** ** [structs.py] *)

Record FrameImage : Type := {
  image_idx : Z;
  offset : Z * Z
}.

Definition frame_image : M Buffer.t FrameImage :=
  idx <- Buffer.read_ulong ;;
  x <- Buffer.read_integer 2 true ;;
  y <- Buffer.read_integer 2 true ;;
  ret {| image_idx := idx; offset := (x, y) |}.

Record BranchInfo : Type := {
  jump_target_idx : Z;
  prob_percent : Z
}.

Definition branch_info : M Buffer.t BranchInfo :=
  target <- Buffer.read_ushort ;;
  prob <- Buffer.read_ushort ;;
  ret {| jump_target_idx := target; prob_percent := prob |}.

Record FrameInfo : Type := {
  frame_images : list FrameImage;
  audio_idx : Z;
  duration_centiseconds : Z;
  exit_index : Z;
  branch_infos : list BranchInfo
}.

Definition FrameInfo__init__ : M Buffer.t FrameInfo :=
  images <- Buffer.read_list (Buffer.Reader frame_image) Buffer.ushort None ;;
  audio <- Buffer.read_ushort ;;
  duration <- Buffer.read_ushort ;;
  exit <- Buffer.read_integer 2 true ;;
  branches <- Buffer.read_list (Buffer.Reader branch_info) Buffer.byte None ;;
  overlay <- Buffer.read ;;
  if overlay >? 0 then raise NotImplementedError
  else ret {| frame_images := images; audio_idx := audio;
              duration_centiseconds := duration; exit_index := exit;
              branch_infos := branches |}.

(** The loop of [pick_jump_destination], with [prob_sum] so far. *)
Fixpoint pick_loop (branches : list BranchInfo) (prob_sum rand_value : Z)
  : option Z :=
  match branches with
  | [] => None
  | branch :: rest =>
      let prob_sum := prob_sum + prob_percent branch in
      if rand_value <? prob_sum then Some (jump_target_idx branch)
      else pick_loop rest prob_sum rand_value
  end.

Definition pick_jump_destination (self : FrameInfo) (rand_value : Z)
  : option Z :=
  pick_loop (branch_infos self) 0 rand_value.

(** [anim_controller.py], in [__play]:
    [frame_idx = frame_idx + 1 if jump_dest is None else jump_dest]. *)
Definition next_frame_idx (frame : FrameInfo) (frame_idx rand_value : Z) : Z :=
  match pick_jump_destination frame rand_value with
  | None => frame_idx + 1
  | Some jump_dest => jump_dest
  end.

Record AnimInfo : Type := {
  name : str;
  transition_type : Z;
  return_anim_name : str;
  frames : list FrameInfo
}.

Definition AnimInfo__init__ : M Buffer.t AnimInfo :=
  n <- Buffer.read_string ;;
  transition <- Buffer.read ;;
  return_name <- Buffer.read_string ;;
  fs <- Buffer.read_list (Buffer.Reader FrameInfo__init__) Buffer.ushort None ;;
  ret {| name := n; transition_type := transition;
         return_anim_name := return_name; frames := fs |}.

(** What [_LOG.warning(f'{name} <> {upper_name}')] records. *)
Record warning : Type := Warning {
  warned_name : str;
  warned_upper_name : str
}.

Section AnimInfoReader.

(** [str.upper], Python's own function, is a parameter of the reader. *)
Variable upper : str -> str.

(** [anim_info] returns the record and the warnings it logged. *)
Definition anim_info : M Buffer.t (AnimInfo * list warning) :=
  outer <- Buffer.read_string ;;
  sub <- Buffer.locator true ;;
  fun buf =>
    match AnimInfo__init__ sub with
    | Raise e => Raise e
    | Ok (info, _) =>
        let upper_name := upper outer in
        if decide (upper_name = name info)
        then Ok ((info, []), buf)
        else Ok ((info, [Warning outer upper_name]), buf)
    end.

End AnimInfoReader.

(** [m[:, c]] *)
Definition column (m : list (list Z)) (c : nat) : list Z :=
  map (fun row => default 0 (row !! c)) m.

(** [m[:, c] = vals] *)
Definition set_column (m : list (list Z)) (c : nat) (vals : list Z)
  : list (list Z) :=
  zip_with (fun row v => <[c := v]> row) m vals.

(** [np.full_like(m, fill_value=v)] *)
Definition full_like (m : list (list Z)) (v : Z) : list (list Z) :=
  map (map (fun _ => v)) m.

(** [m[i, :] = v] *)
Definition set_row (m : list (list Z)) (i : Z) (v : Z)
  : result (list (list Z)) :=
  match Py.getitem m i with
  | Ok row => Py.setitem m i (map (fun _ => v) row)
  | Raise e => Raise e
  end.

(** Lines 71 to 76, from the bytes that [read_bytes] returned. *)
Definition palette_of_bytes (raw : list Z) (palette_size : Z)
  (transparency_index : Z) : result (list (list Z)) :=
  match Np.reshape raw palette_size 4 with
  | Raise e => Raise e
  | Ok palette =>
      let self_palette := full_like palette 255 in
      let self_palette := set_column self_palette 0 (column palette 2) in
      let self_palette := set_column self_palette 1 (column palette 1) in
      let self_palette := set_column self_palette 2 (column palette 0) in
      set_row self_palette transparency_index 0
  end.

Definition read_palette (transparency_index : Z)
  : M Buffer.t (list (list Z)) :=
  palette_size <- Buffer.read_ulong ;;
  raw <- Buffer.read_bytes (palette_size * 4) ;;
  lift (palette_of_bytes (mv_bytes raw) palette_size transparency_index).

(** ** Vocabulary of the statements *)

(** [OutOfFuel] is never raised by a computation built from the primitives:
    [python_only m] says so for [m]. *)
Definition python_only {S A} (m : M S A) : Prop :=
  forall s, m s <> Raise OutOfFuel.

(** The state in which [decompress] enters its loop: the zeroed output buffer
    and the stream behind the header byte. *)
Definition start (data : list Z) (buffer_size : Z)
  : result (locals * bitstream) :=
  match np_zeros buffer_size with
  | Raise e => Raise e
  | Ok o =>
      match read_rev 8 (BitStream (map _reverse_bits data)) with
      | Raise e => Raise e
      | Ok (_, stream) =>
          Ok ({| out := o; out_pos := 0; total_decoded_count := 0 |}, stream)
      end
  end.

(** [reaches c c']: from the loop state [c] (locals and unread bits), zero or
    more complete passes through the loop body lead to [c']. *)
Inductive reaches : locals * bitstream -> locals * bitstream -> Prop :=
  | reaches_here c : reaches c c
  | reaches_pass l s l' s' c :
      s <> [] ->
      loop_body l s = Ok (Continue l', s') ->
      reaches (l', s') c ->
      reaches (l, s) c.

(** Where the byte at position [j] comes from once [i] bytes have been copied
    to [pos] from [off] bytes back: a copied position repeats the [off] bytes
    before [pos] periodically, any other position is itself. *)
Definition copy_source (pos off i j : Z) : Z :=
  if (pos <=? j) && (j <? pos + i) then pos - off + (j - pos) mod off else j.

(** The value of a run of bits, the first bit least significant: what
    [read_rev] makes of the bits it reads. *)
Fixpoint bits_value (bs : list bool) : Z :=
  match bs with
  | [] => 0
  | b :: bs' => Z.b2z b + 2 * bits_value bs'
  end.

(** The reconstruction in the specification's words, for comparison with the
    code: the stream is [h] rows of [(w + 3) & ~3] bytes, of each row the
    first [w] bytes are kept, and the rows are taken last to first. *)
Definition spec_stride (w : Z) : Z := Z.land (w + 3) (Z.lnot 3).

Definition spec_image (stream : list Z) (w h : Z) : list (list Z) :=
  map (fun r => Py.slice stream ((h - 1 - r) * spec_stride w)
                                ((h - 1 - r) * spec_stride w + w))
      (seqZ 0 h).

(** [str.upper] on ASCII letters; other code points are left as they are
    (Python maps some of them too; the names in the examples below are
    ASCII). *)
Definition ascii_upper (s : str) : str :=
  map (fun c => if (97 <=? c) && (c <=? 122) then c - 32 else c) s.

(** [p_1 + ... + p_i] *)
Definition cumulative (branches : list BranchInfo) (i : nat) : Z :=
  foldr Z.add 0 (map prob_percent (take i branches)).

(** Every entry is a byte. *)
Definition bytes_ok (l : list Z) : Prop := Forall (fun b => 0 <= b < 256) l.

(** The window of a view lies inside its object. *)
Definition view_ok (v : memoryview) : Prop :=
  0 <= mv_start v /\ mv_start v <= mv_stop v /\
  mv_stop v <= Z.of_nat (length (mv_obj v)).

(** A buffer over a whole file, as [AcsFile.__init__] makes it. *)
Definition buffer_of (file : list Z) : Buffer.t :=
  Buffer.__init__ (memoryview_of file) (memoryview_of file) 0.

(** ** Sample inputs *)

(** The sample at the end of [_image_decompression.py]. *)
Definition sample_data : list Z :=
  [0x00; 0x40; 0x00; 0x04; 0x10; 0xD0; 0x90; 0x80; 0x42; 0xED; 0x98; 0x01;
   0xB7; 0xFF; 0xFF; 0xFF; 0xFF; 0xFF; 0xFF].

Definition sample_expected : list Z :=
  [0x20; 0; 0; 0; 1] ++ replicate 7 0 ++ [0xA8] ++ replicate 19 0.

(** A stream that holds one literal [0xAA] and then a copy with offset 1 and
    length 5, closed by the sentinel. *)
Definition overlap_data : list Z := [0x00; 0x54; 0x03; 0xC6; 0xFF; 0xFF; 0xFF].

(** A stream whose first pass is a back-reference with twelve 1-bits in its
    secondary run. *)
Definition corrupt_data : list Z := [0x00; 0x01; 0xFF; 0x0F].

(** Two rows of one pixel, each padded to four bytes, as eight literals. *)
Definition padded_rows_data : list Z :=
  [0x00; 0x02; 0x00; 0x00; 0x00; 0x40; 0x00; 0x00; 0x00; 0x00;
   0xFF; 0xFF; 0xFF].

(** One row of 256 zero bytes: a literal 0 and a copy of 255 bytes from one
    byte back. *)
Definition wide_row_data : list Z :=
  [0x00; 0x00; 0x02; 0xFE; 0xFC; 0xFF; 0xFF; 0xFF].

(** The frame of the specification's example. *)
Definition example_frame : FrameInfo :=
  {| frame_images := []; audio_idx := 65535; duration_centiseconds := 10;
     exit_index := -1;
     branch_infos := [ {| jump_target_idx := 3; prob_percent := 30 |};
                       {| jump_target_idx := 7; prob_percent := 40 |} ] |}.

(** A locator (8, 4) in front of the four bytes it points at. *)
Definition located_file : list Z := [8; 0; 0; 0; 4; 0; 0; 0; 1; 2; 3; 4].

(** An animation record: the outer name, a locator (16, 15), and at 16 the
    inner record with its name, transition type 2, no return animation and
    no frames.  The two names have one letter each. *)
Definition anim_record (outer_letter inner_letter : Z) : list Z :=
  [1; 0; 0; 0; outer_letter; 0; 0; 0;
   16; 0; 0; 0; 15; 0; 0; 0;
   1; 0; 0; 0; inner_letter; 0; 0; 0;
   2;
   0; 0; 0; 0;
   0; 0].

(** The record that [AnimInfo__init__] decodes from [anim_record]. *)
Definition anim_named (letter : Z) : AnimInfo :=
  {| name := [letter]; transition_type := 2; return_anim_name := [];
     frames := [] |}.

(** ** Proofs *)

(** *** The sample of the source *)

Example decompress_sample : decompress sample_data 256 = Ok sample_expected.
Proof. vm_compute. reflexivity. Qed.

(** *** Reasoning in the monad *)

Lemma bind_Ok {S A B} (m : M S A) (k : A -> M S B) s b s' :
  bind m k s = Ok (b, s') <->
  exists a s1, m s = Ok (a, s1) /\ k a s1 = Ok (b, s').
Proof.
  unfold bind. split.
  - destruct (m s) as [[a s1]|e]; [eauto | discriminate].
  - intros (a & s1 & -> & Hk). exact Hk.
Qed.

Lemma lift_Ok {S A} (r : result A) (s : S) a s' :
  lift r s = Ok (a, s') <-> r = Ok a /\ s' = s.
Proof.
  unfold lift. destruct r; split; intros H; try discriminate.
  - injection H as -> ->. auto.
  - destruct H as [[= ->] ->]. reflexivity.
  - destruct H as [[=] _].
Qed.

Lemma ret_Ok {S A} (a : A) (s : S) b s' :
  ret a s = Ok (b, s') <-> b = a /\ s' = s.
Proof.
  unfold ret. split.
  - intros [= -> ->]. auto.
  - intros [-> ->]. reflexivity.
Qed.

(** Splits a hypothesis [bind m k s = Ok _] into its two runs. *)
Ltac bind_inv H :=
  let a := fresh "a" in
  let s1 := fresh "s" in
  let H1 := fresh "Hrun" in
  apply bind_Ok in H; destruct H as (a & s1 & H1 & H).

(** *** The bit stream primitives consume what they read *)

Lemma read_bool_length s b s' :
  read_bool s = Ok (b, s') -> s = b :: s'.
Proof. destruct s; simpl; [discriminate | intros [= -> ->]; reflexivity]. Qed.

Lemma read_rev_loop_length n : forall offset v s x s',
  read_rev_loop n offset v s = Ok (x, s') ->
  length s = (n + length s')%nat.
Proof.
  induction n as [|n IH]; intros offset v s x s' H; simpl in H.
  - apply ret_Ok in H as [_ ->]. reflexivity.
  - bind_inv H. unfold read_uint1 in Hrun. bind_inv Hrun.
    apply read_bool_length in Hrun0. apply ret_Ok in Hrun as [_ ->].
    apply IH in H. subst s. simpl. lia.
Qed.

Lemma read_rev_length count s x s' :
  read_rev count s = Ok (x, s') ->
  length s = (Z.to_nat count + length s')%nat.
Proof. apply read_rev_loop_length. Qed.

Lemma count_ones_loop_length n : forall c s x s',
  count_ones_loop n c s = Ok (x, s') -> (length s' <= length s)%nat.
Proof.
  induction n as [|n IH]; intros c s x s' H; simpl in H.
  - apply ret_Ok in H as [_ ->]. lia.
  - bind_inv H. apply read_bool_length in Hrun. subst s. simpl.
    destruct a.
    + apply IH in H. lia.
    + apply ret_Ok in H as [_ ->]. lia.
Qed.

Lemma count_consecutive_ones_length limit s x s' :
  count_consecutive_ones limit s = Ok (x, s') -> (length s' <= length s)%nat.
Proof. apply count_ones_loop_length. Qed.

(** The run counted never exceeds the limit. *)
Lemma count_ones_loop_bound n : forall c s x s',
  count_ones_loop n c s = Ok (x, s') -> c <= x <= c + Z.of_nat n.
Proof.
  induction n as [|n IH]; intros c s x s' H; simpl in H.
  - apply ret_Ok in H as [-> _]. lia.
  - bind_inv H. destruct a.
    + apply IH in H. lia.
    + apply ret_Ok in H as [-> _]. lia.
Qed.

Lemma count_consecutive_ones_bound limit s x s' :
  0 <= limit ->
  count_consecutive_ones limit s = Ok (x, s') -> 0 <= x <= limit.
Proof.
  intros Hl H. apply count_ones_loop_bound in H. lia.
Qed.

(** Every pass through the loop body reads at least the flag bit. *)
Lemma loop_body_consumes l s f s' :
  loop_body l s = Ok (f, s') -> (length s' < length s)%nat.
Proof.
  unfold loop_body. intros H. bind_inv H.
  apply read_bool_length in Hrun. subst s. simpl.
  destruct a; simpl in H.
  - bind_inv H. apply count_consecutive_ones_length in Hrun.
    bind_inv H. apply lift_Ok in Hrun0 as [_ ->].
    bind_inv H. apply read_rev_length in Hrun0.
    destruct ((a0 =? 20) && (a1 =? 1048575)).
    + apply ret_Ok in H as [_ ->]. lia.
    + bind_inv H. apply lift_Ok in Hrun1 as [_ ->].
      bind_inv H. apply count_consecutive_ones_length in Hrun1.
      destruct (a3 =? 12); [discriminate|].
      bind_inv H. apply read_rev_length in Hrun2.
      bind_inv H. apply lift_Ok in Hrun3 as [_ ->].
      apply ret_Ok in H as [_ ->]. lia.
  - bind_inv H. apply read_rev_length in Hrun.
    bind_inv H. apply lift_Ok in Hrun0 as [_ ->].
    apply ret_Ok in H as [_ ->]. lia.
Qed.

(** *** Only Python exceptions are raised *)

Lemma python_only_ret {S A} (a : A) : python_only (S := S) (ret a).
Proof. intros s. discriminate. Qed.

Lemma python_only_raise {S A} e :
  e <> OutOfFuel -> python_only (S := S) (A := A) (raise e).
Proof. intros He s [= ->]. congruence. Qed.

Lemma python_only_lift {S A} (r : result A) :
  r <> Raise OutOfFuel -> python_only (S := S) (lift r).
Proof. intros Hr s. unfold lift. destruct r; congruence. Qed.

Lemma python_only_bind {S A B} (m : M S A) (k : A -> M S B) :
  python_only m -> (forall a, python_only (k a)) -> python_only (bind m k).
Proof.
  intros Hm Hk s. unfold bind. specialize (Hm s).
  destruct (m s) as [[a s1]|e]; [apply Hk|].
  intros [= ->]. apply Hm. reflexivity.
Qed.

Lemma python_only_read_bool : python_only read_bool.
Proof. intros [|b s]; discriminate. Qed.

Lemma python_only_read_rev_loop n : forall offset v,
  python_only (read_rev_loop n offset v).
Proof.
  induction n as [|n IH]; intros offset v; simpl.
  - apply python_only_ret.
  - apply python_only_bind; [|intros a; apply IH].
    apply python_only_bind; [apply python_only_read_bool|].
    intros a. apply python_only_ret.
Qed.

Lemma python_only_count_ones_loop n : forall c,
  python_only (count_ones_loop n c).
Proof.
  induction n as [|n IH]; intros c; simpl.
  - apply python_only_ret.
  - apply python_only_bind; [apply python_only_read_bool|].
    intros [|]; [apply IH | apply python_only_ret].
Qed.

Lemma python_only_read_rev count : python_only (read_rev count).
Proof. apply python_only_read_rev_loop. Qed.

Lemma python_only_count_consecutive_ones limit :
  python_only (count_consecutive_ones limit).
Proof. apply python_only_count_ones_loop. Qed.

Lemma getitem_python_only {A} (l : list A) i :
  Py.getitem l i <> Raise OutOfFuel.
Proof.
  unfold Py.getitem, Py.index.
  destruct (_ && _); [destruct (l !! _)|]; discriminate.
Qed.

Lemma setitem_python_only {A} (l : list A) i v :
  Py.setitem l i v <> Raise OutOfFuel.
Proof. unfold Py.setitem, Py.index. destruct (_ && _); discriminate. Qed.

Lemma copy_loop_python_only n : forall i o out_pos source_idx,
  copy_loop n i o out_pos source_idx <> Raise OutOfFuel.
Proof.
  induction n as [|n IH]; intros i o p src; simpl; [discriminate|].
  pose proof (getitem_python_only o (src + i)) as Hg.
  destruct (Py.getitem o (src + i)) as [v|e];
    [|intros [= ->]; apply Hg; reflexivity].
  pose proof (setitem_python_only o (p + i) v) as Hs.
  destruct (Py.setitem o (p + i) v) as [o'|e]; [apply IH | exact Hs].
Qed.

Lemma python_only_loop_body l : python_only (loop_body l).
Proof.
  unfold loop_body.
  apply python_only_bind; [apply python_only_read_bool|].
  intros [|]; cbn [negb].
  - apply python_only_bind; [apply python_only_count_consecutive_ones|].
    intros k.
    apply python_only_bind;
      [apply python_only_lift, getitem_python_only|]. intros vbc.
    apply python_only_bind; [apply python_only_read_rev|]. intros off.
    destruct (_ && _); [apply python_only_ret|].
    apply python_only_bind;
      [apply python_only_lift, getitem_python_only|]. intros bias.
    apply python_only_bind; [apply python_only_count_consecutive_ones|].
    intros m.
    destruct (m =? 12); [apply python_only_raise; discriminate|].
    apply python_only_bind; [apply python_only_read_rev|]. intros e.
    apply python_only_bind;
      [apply python_only_lift, copy_loop_python_only|]. intros o.
    apply python_only_ret.
  - apply python_only_bind; [apply python_only_read_rev|]. intros byte.
    apply python_only_bind;
      [apply python_only_lift, setitem_python_only|]. intros o.
    apply python_only_ret.
Qed.

(** *** Termination of the decoding loop *)

Lemma decode_loop_fuel f1 : forall f2 l s,
  (length s <= f1)%nat -> (length s <= f2)%nat ->
  decode_loop f1 l s = decode_loop f2 l s.
Proof.
  induction f1 as [|f1 IH]; intros f2 l s H1 H2.
  - destruct s; [destruct f2; reflexivity | simpl in H1; lia].
  - destruct s as [|b s]; [destruct f2; reflexivity|].
    destruct f2 as [|f2]; [simpl in H2; lia|].
    simpl. destruct (loop_body l (b :: s)) as [[[l'|l'] s']|e] eqn:Hb;
      try reflexivity.
    apply loop_body_consumes in Hb. simpl in *. apply IH; lia.
Qed.

Lemma decode_loop_terminates fuel : forall l s,
  (length s <= fuel)%nat -> decode_loop fuel l s <> Raise OutOfFuel.
Proof.
  induction fuel as [|fuel IH]; intros l s H.
  - destruct s; [discriminate | simpl in H; lia].
  - destruct s as [|b s]; [discriminate|].
    simpl. pose proof (python_only_loop_body l (b :: s)) as Hp.
    destruct (loop_body l (b :: s)) as [[[l'|l'] s']|e] eqn:Hb;
      try discriminate.
    + apply loop_body_consumes in Hb. simpl in *. apply IH. lia.
    + intros [= ->]. apply Hp. reflexivity.
Qed.

Lemma decompress_start data buffer_size :
  decompress data buffer_size =
  match start data buffer_size with
  | Ok (l, s) => decode_loop (length s) l s
  | Raise e => Raise e
  end.
Proof.
  unfold decompress, start. destruct (np_zeros buffer_size); [|reflexivity].
  destruct (read_rev 8 _) as [[x s]|e]; reflexivity.
Qed.

(** [decompress] always answers: a result or a Python exception. *)
Lemma decompress_terminates data buffer_size :
  decompress data buffer_size <> Raise OutOfFuel.
Proof.
  rewrite decompress_start. unfold start.
  destruct (np_zeros buffer_size) as [o|e] eqn:Hz.
  - pose proof (python_only_read_rev 8
                  (BitStream (map _reverse_bits data))) as Hr.
    destruct (read_rev 8 _) as [[x s]|e].
    + apply decode_loop_terminates. lia.
    + intros [= ->]. apply Hr. reflexivity.
  - unfold np_zeros in Hz. destruct (buffer_size <? 0); congruence.
Qed.

(** *** Reaching a point of the stream *)

Lemma reaches_decode_loop c c' :
  reaches c c' ->
  forall fuel, (length (snd c) <= fuel)%nat ->
  decode_loop fuel (fst c) (snd c) =
  decode_loop (length (snd c')) (fst c') (snd c').
Proof.
  induction 1 as [[l s]|l s l' s' c Hne Hb Hr IH]; intros fuel Hf; simpl in *.
  - apply decode_loop_fuel; lia.
  - destruct s as [|b s]; [congruence|].
    destruct fuel as [|fuel]; [simpl in Hf; lia|].
    simpl. rewrite Hb. apply IH.
    apply loop_body_consumes in Hb. simpl in *. lia.
Qed.

Lemma decompress_reaches data buffer_size l0 s0 l s :
  start data buffer_size = Ok (l0, s0) ->
  reaches (l0, s0) (l, s) ->
  decompress data buffer_size = decode_loop (length s) l s.
Proof.
  intros Hs Hr. rewrite decompress_start, Hs.
  apply (reaches_decode_loop _ _ Hr). simpl. lia.
Qed.

(** [out_pos] and [total_decoded_count] advance together. *)
Lemma loop_body_positions l s l' s' :
  out_pos l = total_decoded_count l ->
  loop_body l s = Ok (Continue l', s') ->
  out_pos l' = total_decoded_count l'.
Proof.
  unfold loop_body. intros Hinv H. bind_inv H. destruct a; simpl in H.
  - do 3 bind_inv H. destruct (_ && _).
    + apply ret_Ok in H as [[=] _].
    + do 2 bind_inv H. destruct (_ =? 12); [discriminate|].
      do 2 bind_inv H. apply ret_Ok in H as [[= ->] _]. simpl. lia.
  - do 2 bind_inv H. apply ret_Ok in H as [[= ->] _]. simpl. lia.
Qed.

Lemma reaches_positions c c' :
  reaches c c' ->
  out_pos (fst c) = total_decoded_count (fst c) ->
  out_pos (fst c') = total_decoded_count (fst c').
Proof.
  induction 1 as [c|l s l' s' c Hne Hb Hr IH]; intros Hinv; [exact Hinv|].
  apply IH. simpl in *. eapply loop_body_positions; eauto.
Qed.

Lemma setitem_length {A} (l : list A) i v l' :
  Py.setitem l i v = Ok l' -> length l' = length l.
Proof.
  unfold Py.setitem. destruct (Py.index l i); [|discriminate].
  intros [= <-]. apply length_insert.
Qed.

Lemma copy_loop_length n : forall i o out_pos source_idx o',
  copy_loop n i o out_pos source_idx = Ok o' -> length o' = length o.
Proof.
  induction n as [|n IH]; intros i o p src o' H; simpl in H.
  - injection H as <-. reflexivity.
  - destruct (Py.getitem o (src + i)) as [v|]; [|discriminate].
    destruct (Py.setitem o (p + i) v) as [o1|] eqn:Hs; [|discriminate].
    apply IH in H. apply setitem_length in Hs. congruence.
Qed.

Lemma loop_body_buffer l s l' s' :
  loop_body l s = Ok (Continue l', s') -> length (out l') = length (out l).
Proof.
  unfold loop_body. intros H. bind_inv H. destruct a; simpl in H.
  - do 3 bind_inv H. destruct (_ && _).
    + apply ret_Ok in H as [[=] _].
    + do 2 bind_inv H. destruct (_ =? 12); [discriminate|].
      do 2 bind_inv H. apply ret_Ok in H as [[= ->] _]. simpl.
      match goal with
      | Hc : lift (copy_loop _ _ _ _ _) _ = _ |- _ =>
          apply lift_Ok in Hc as [Hc _]; eapply copy_loop_length, Hc
      end.
  - do 2 bind_inv H. apply ret_Ok in H as [[= ->] _]. simpl.
    match goal with
    | Hs : lift (Py.setitem _ _ _) _ = _ |- _ =>
        apply lift_Ok in Hs as [Hs _]; eapply setitem_length, Hs
    end.
Qed.

(** At every point that [decompress] reaches, the two positions agree and
    the buffer has the size it was allocated with. *)
Lemma decompress_invariant data buffer_size l0 s0 l s :
  start data buffer_size = Ok (l0, s0) ->
  reaches (l0, s0) (l, s) ->
  out_pos l = total_decoded_count l /\
  Z.of_nat (length (out l)) = buffer_size.
Proof.
  intros Hstart Hreach.
  assert (H0 : out_pos l0 = total_decoded_count l0 /\
               Z.of_nat (length (out l0)) = buffer_size).
  { unfold start, np_zeros in Hstart.
    destruct (Z.ltb_spec buffer_size 0); [discriminate|].
    destruct (read_rev 8 _) as [[x s1]|]; [|discriminate].
    injection Hstart as <- <-. simpl. rewrite length_replicate. lia. }
  clear Hstart. revert H0.
  remember (l0, s0) as c eqn:Ec. remember (l, s) as c' eqn:Ec'.
  revert l0 s0 Ec. induction Hreach as [c|l1 s1 l2 s2 c Hne Hb Hr IH];
    intros l0 s0 Ec H0.
  - subst c. injection Ec as <- <-. exact H0.
  - injection Ec as <- <-. apply (IH Ec' l2 s2 eq_refl).
    destruct H0 as [Hp Hl]. split.
    + eapply loop_body_positions; eauto.
    + rewrite (loop_body_buffer _ _ _ _ Hb). exact Hl.
Qed.

(** *** Indexing inside the buffer *)

Lemma index_in_range {A} (l : list A) j :
  0 <= j < Z.of_nat (length l) -> Py.index l j = Ok (Z.to_nat j).
Proof.
  intros Hj. unfold Py.index.
  destruct (Z.ltb_spec j 0); [lia|].
  destruct (Z.leb_spec 0 j); [|lia].
  destruct (Z.ltb_spec j (Z.of_nat (length l))); [reflexivity | lia].
Qed.

Lemma getitem_in_range {A} (l : list A) j v :
  0 <= j < Z.of_nat (length l) ->
  (Py.getitem l j = Ok v) <-> (l !! Z.to_nat j = Some v).
Proof.
  intros Hj. unfold Py.getitem. rewrite index_in_range by exact Hj.
  destruct (l !! Z.to_nat j) as [x|] eqn:E.
  - split; intros [= ->]; reflexivity.
  - apply lookup_ge_None in E. lia.
Qed.

Lemma getitem_lookup_eq {A} (l l' : list A) j j' :
  0 <= j < Z.of_nat (length l) -> 0 <= j' < Z.of_nat (length l') ->
  l !! Z.to_nat j = l' !! Z.to_nat j' ->
  Py.getitem l j = Py.getitem l' j'.
Proof.
  intros Hj Hj' E. unfold Py.getitem.
  rewrite !index_in_range by assumption. rewrite E. reflexivity.
Qed.

Lemma setitem_in_range {A} (l : list A) j v :
  0 <= j < Z.of_nat (length l) ->
  Py.setitem l j v = Ok (<[Z.to_nat j := v]> l).
Proof.
  intros Hj. unfold Py.setitem. rewrite index_in_range by exact Hj.
  reflexivity.
Qed.

(** *** The byte-at-a-time copy *)

Lemma copy_source_range pos off i j len :
  1 <= off <= pos -> 0 <= j < len -> 0 <= copy_source pos off i j < len.
Proof.
  intros Hoff Hj. unfold copy_source.
  destruct (Z.leb_spec pos j); simpl; [|lia].
  destruct (Z.ltb_spec j (pos + i)); [|lia].
  pose proof (Z.mod_pos_bound (j - pos) off). lia.
Qed.

Lemma copy_loop_spec n : forall i o0 o pos off,
  1 <= off <= pos -> 0 <= i ->
  pos + i + Z.of_nat n <= Z.of_nat (length o0) ->
  length o = length o0 ->
  (forall j, 0 <= j < Z.of_nat (length o0) ->
             o !! Z.to_nat j = o0 !! Z.to_nat (copy_source pos off i j)) ->
  exists o',
    copy_loop n i o pos (pos - off) = Ok o' /\
    length o' = length o0 /\
    forall j, 0 <= j < Z.of_nat (length o0) ->
      o' !! Z.to_nat j =
      o0 !! Z.to_nat (copy_source pos off (i + Z.of_nat n) j).
Proof.
  induction n as [|n IH]; intros i o0 o pos off Hoff Hi Hfit Hlen Hinv.
  - exists o. simpl. rewrite Z.add_0_r. auto.
  - simpl.
    assert (Hsrc : 0 <= pos - off + i < Z.of_nat (length o)) by lia.
    destruct (lookup_lt_is_Some_2 o (Z.to_nat (pos - off + i))) as [v Hv];
      [lia|].
    rewrite (proj2 (getitem_in_range o _ v Hsrc) Hv).
    rewrite setitem_in_range by lia.
    destruct (IH (i + 1) o0 (<[Z.to_nat (pos + i) := v]> o) pos off)
      as (o' & Hrun & Hlen' & Hspec); try lia.
    + rewrite length_insert. exact Hlen.
    + intros j Hj.
      destruct (Z.eq_dec j (pos + i)) as [->|Hne].
      * rewrite list_lookup_insert_eq by lia.
        rewrite <- Hv, Hinv by lia. f_equal. f_equal.
        unfold copy_source.
        replace (pos + i - pos) with i by lia.
        destruct (Z.leb_spec pos (pos + i)); [|lia].
        destruct (Z.ltb_spec (pos + i) (pos + (i + 1))); [|lia].
        destruct (Z.leb_spec pos (pos - off + i)); simpl.
        -- destruct (Z.ltb_spec (pos - off + i) (pos + i)); [|lia].
           replace (pos - off + i - pos) with (i - off) by lia.
           replace i with (i - off + 1 * off) at 2 by lia.
           rewrite Z.mod_add by lia. reflexivity.
        -- rewrite Z.mod_small by lia. reflexivity.
      * rewrite list_lookup_insert_ne by lia.
        rewrite Hinv by lia. f_equal. f_equal. unfold copy_source.
        destruct (Z.leb_spec pos j); simpl; [|reflexivity].
        destruct (Z.ltb_spec j (pos + i)), (Z.ltb_spec j (pos + (i + 1)));
          try reflexivity; lia.
    + exists o'. split; [exact Hrun|]. split; [exact Hlen'|].
      intros j Hj. rewrite Hspec by exact Hj. f_equal. f_equal. f_equal. lia.
Qed.

(** The copy as the decoder runs it: [len] bytes from [pos - off] to [pos],
    inside the buffer. *)
Lemma copy_loop_pattern (o : list Z) pos off len :
  1 <= off <= pos -> 0 <= len -> pos + len <= Z.of_nat (length o) ->
  exists o',
    copy_loop (Z.to_nat len) 0 o pos (pos - off) = Ok o' /\
    length o' = length o /\
    (forall i, 0 <= i < len ->
       Py.getitem o' (pos + i) = Py.getitem o (pos - off + i mod off)) /\
    (forall j, 0 <= j < Z.of_nat (length o) -> ~ (pos <= j < pos + len) ->
       Py.getitem o' j = Py.getitem o j).
Proof.
  intros Hoff Hlen Hfit.
  destruct (copy_loop_spec (Z.to_nat len) 0 o o pos off)
    as (o' & Hrun & Hlen' & Hspec); try lia.
  { intros j Hj. unfold copy_source.
    destruct (Z.leb_spec pos j); simpl; [|reflexivity].
    destruct (Z.ltb_spec j (pos + 0)); [lia | reflexivity]. }
  exists o'. split; [exact Hrun|]. split; [exact Hlen'|]. split.
  - intros i Hi. pose proof (Z.mod_pos_bound i off).
    apply getitem_lookup_eq; try lia.
    rewrite Hspec by lia. f_equal. f_equal. unfold copy_source.
    destruct (Z.leb_spec pos (pos + i)); [|lia].
    destruct (Z.ltb_spec (pos + i) (pos + (0 + Z.of_nat (Z.to_nat len))));
      [|lia].
    simpl. f_equal. f_equal. lia.
  - intros j Hj Hout. apply getitem_lookup_eq; try lia.
    rewrite Hspec by lia. f_equal. f_equal. unfold copy_source.
    destruct (Z.leb_spec pos j); simpl; [|reflexivity].
    destruct (Z.ltb_spec j (pos + (0 + Z.of_nat (Z.to_nat len))));
      [lia | reflexivity].
Qed.

(** *** What a back-reference pass does *)

Lemma read_rev_loop_nonneg n : forall offset v s x s',
  0 <= v -> read_rev_loop n offset v s = Ok (x, s') -> 0 <= x.
Proof.
  induction n as [|n IH]; intros offset v s x s' Hv H; simpl in H.
  - apply ret_Ok in H as [-> _]. exact Hv.
  - bind_inv H. apply IH in H; [exact H|].
    apply Z.lor_nonneg. split; [exact Hv|].
    apply Z.shiftl_nonneg.
    unfold read_uint1 in Hrun. bind_inv Hrun.
    apply ret_Ok in Hrun as [-> _]. destruct a0; simpl; lia.
Qed.

Lemma read_rev_nonneg count s x s' :
  read_rev count s = Ok (x, s') -> 0 <= x.
Proof. apply read_rev_loop_nonneg. lia. Qed.

Lemma copy_loop_raises n : forall i o out_pos source_idx x,
  copy_loop n i o out_pos source_idx = Raise x -> x = IndexError.
Proof.
  induction n as [|n IH]; intros i o p src x H; simpl in H; [discriminate|].
  unfold Py.getitem, Py.setitem, Py.index in H.
  destruct (_ && _) in H; [|congruence].
  destruct (o !! _) in H; [|congruence].
  destruct (_ && _) in H; [|congruence].
  eapply IH, H.
Qed.

Lemma read_rev_loop_raises n : forall offset v s x,
  read_rev_loop n offset v s = Raise x -> x = ReadError.
Proof.
  induction n as [|n IH]; intros offset v s x H; simpl in H; [discriminate|].
  unfold bind at 1, read_uint1, bind at 1 in H.
  destruct s as [|b s]; simpl in H; [congruence|].
  eapply IH, H.
Qed.

Lemma read_rev_raises count s x :
  read_rev count s = Raise x -> x = ReadError.
Proof. apply read_rev_loop_raises. Qed.

Lemma bits_value_bound bs : 0 <= bits_value bs < 2 ^ Z.of_nat (length bs).
Proof.
  induction bs as [|b bs IH]; [simpl; lia|].
  cbn [bits_value length]. rewrite Nat2Z.inj_succ, Z.pow_succ_r by lia.
  destruct b; simpl Z.b2z; lia.
Qed.

Lemma bits_value_all_ones bs :
  bits_value bs = 2 ^ Z.of_nat (length bs) - 1 ->
  bs = replicate (length bs) true.
Proof.
  induction bs as [|b bs IH]; [reflexivity|].
  cbn [bits_value length replicate].
  rewrite Nat2Z.inj_succ, Z.pow_succ_r by lia.
  pose proof (bits_value_bound bs) as Hb. intros H.
  destruct b; simpl Z.b2z in H.
  - f_equal. apply IH. lia.
  - lia.
Qed.

Lemma lor_bit v (b : bool) off :
  0 <= off -> 0 <= v < 2 ^ off ->
  Z.lor v (Z.shiftl (Z.b2z b) off) = v + Z.b2z b * 2 ^ off.
Proof.
  intros Hoff Hv. rewrite Z.shiftl_mul_pow2 by lia.
  destruct b; simpl Z.b2z.
  - rewrite Z.mul_1_l.
    assert (Hland : Z.land v (2 ^ off) = 0).
    { apply Z.bits_inj'. intros i Hi.
      rewrite Z.land_spec, Z.bits_0, Z.pow2_bits_eqb by lia.
      destruct (Z.eqb_spec off i) as [<-|]; [|apply andb_false_r].
      rewrite andb_true_r.
      destruct (Z.eq_dec v 0) as [->|Hne]; [apply Z.bits_0|].
      apply Z.bits_above_log2; [lia|]. apply Z.log2_lt_pow2; lia. }
    rewrite <- Z.lxor_lor, <- Z.add_nocarry_lxor by exact Hland.
    reflexivity.
  - rewrite Z.mul_0_l, Z.lor_0_r, Z.add_0_r. reflexivity.
Qed.

Lemma read_rev_loop_value n : forall offset v s,
  (n <= length s)%nat -> 0 <= offset -> 0 <= v < 2 ^ offset ->
  read_rev_loop n offset v s
  = Ok (v + 2 ^ offset * bits_value (take n s), drop n s).
Proof.
  induction n as [|n IH]; intros offset v s Hn Hoff Hv.
  - simpl. unfold ret. rewrite drop_0. f_equal. f_equal. lia.
  - destruct s as [|b s]; [simpl in Hn; lia|].
    cbn [read_rev_loop]. unfold bind at 1, read_uint1, bind at 1.
    cbn [read_bool]. unfold ret at 1.
    rewrite lor_bit by assumption.
    rewrite IH; [|simpl in Hn; lia|lia|].
    + cbn [take drop bits_value]. f_equal. f_equal.
      rewrite Z.pow_add_r by lia. change (2 ^ 1) with 2. lia.
    + rewrite Z.pow_add_r by lia. change (2 ^ 1) with 2.
      destruct b; simpl Z.b2z; lia.
Qed.

Lemma read_rev_value count s :
  (Z.to_nat count <= length s)%nat ->
  read_rev count s
  = Ok (bits_value (take (Z.to_nat count) s), drop (Z.to_nat count) s).
Proof.
  intros H. unfold read_rev. rewrite read_rev_loop_value by (simpl; lia).
  f_equal. f_equal. lia.
Qed.

Lemma read_rev_short count s :
  (length s < Z.to_nat count)%nat -> read_rev count s = Raise ReadError.
Proof.
  intros H. destruct (read_rev count s) as [[x s']|e] eqn:E.
  - apply read_rev_length in E. lia.
  - apply read_rev_raises in E. congruence.
Qed.

Lemma read_rev_all_ones count s rest :
  0 <= count ->
  read_rev count s = Ok (2 ^ count - 1, rest) ->
  s = replicate (Z.to_nat count) true ++ rest.
Proof.
  intros Hc H. pose proof (read_rev_length _ _ _ _ H) as Hlen.
  rewrite read_rev_value in H by lia. injection H as Hv <-.
  rewrite <- (take_drop (Z.to_nat count) s) at 1. f_equal.
  assert (Htake : length (take (Z.to_nat count) s) = Z.to_nat count)
    by (rewrite length_take; lia).
  rewrite <- Htake at 2. apply bits_value_all_ones.
  rewrite Htake, Z2Nat.id by lia. exact Hv.
Qed.

Lemma count_ones_loop_full n : forall c s s',
  count_ones_loop n c s = Ok (c + Z.of_nat n, s') ->
  s = replicate n true ++ s'.
Proof.
  induction n as [|n IH]; intros c s s' H; simpl in H.
  - apply ret_Ok in H as [_ ->]. reflexivity.
  - bind_inv H. apply read_bool_length in Hrun. subst s.
    destruct a.
    + simpl. f_equal. apply (IH (c + 1)). rewrite H. f_equal. f_equal. lia.
    + apply ret_Ok in H as [H _]. lia.
Qed.

Lemma sentinel_bits s1 k s2 rest :
  count_consecutive_ones 3 s1 = Ok (k, s2) ->
  Py.getitem _VALUE_BIT_COUNT k = Ok 20 ->
  read_rev 20 s2 = Ok (1048575, rest) ->
  s1 = replicate 23 true ++ rest.
Proof.
  intros Hk Hvbc Hfield.
  pose proof (count_consecutive_ones_bound 3 _ _ _ ltac:(lia) Hk) as Hk3.
  assert (k = 3) as ->.
  { assert (k = 0 \/ k = 1 \/ k = 2 \/ k = 3) as [-> | [-> | [-> | ->]]]
      by lia; vm_compute in Hvbc; congruence. }
  apply (count_ones_loop_full 3 0) in Hk.
  apply (read_rev_all_ones 20) in Hfield; [|lia].
  subst s1 s2. reflexivity.
Qed.

(** The two tables, entry by entry. *)
Lemma tables_at k vbc bias :
  Py.getitem _VALUE_BIT_COUNT k = Ok vbc ->
  Py.getitem _OFFSET_TO_ADD k = Ok bias ->
  0 <= k <= 3 ->
  (k = 0 /\ vbc = 6 /\ bias = 1) \/ (k = 1 /\ vbc = 9 /\ bias = 65) \/
  (k = 2 /\ vbc = 12 /\ bias = 577) \/ (k = 3 /\ vbc = 20 /\ bias = 4673).
Proof.
  intros Hv Hb Hk.
  assert (k = 0 \/ k = 1 \/ k = 2 \/ k = 3) as [-> | [-> | [-> | ->]]] by lia;
    vm_compute in Hv, Hb; injection Hv as <-; injection Hb as <-; auto 10.
Qed.

Lemma tables_defined k :
  0 <= k <= 3 ->
  exists vbc bias,
    Py.getitem _VALUE_BIT_COUNT k = Ok vbc /\
    Py.getitem _OFFSET_TO_ADD k = Ok bias.
Proof.
  intros Hk.
  assert (k = 0 \/ k = 1 \/ k = 2 \/ k = 3) as [-> | [-> | [-> | ->]]] by lia;
    vm_compute; eauto.
Qed.

(** The pass taken when the flag bit is 1, the offset field is not the
    sentinel and the secondary run [m] is not 12: the body is one run of
    [copy_loop]. *)
Lemma loop_body_copy l s1 k s2 vbc bias field s3 m s4 e rest :
  count_consecutive_ones 3 s1 = Ok (k, s2) ->
  Py.getitem _VALUE_BIT_COUNT k = Ok vbc ->
  Py.getitem _OFFSET_TO_ADD k = Ok bias ->
  read_rev vbc s2 = Ok (field, s3) ->
  ~ (vbc = 20 /\ field = 1048575) ->
  count_consecutive_ones 12 s3 = Ok (m, s4) ->
  m <> 12 ->
  read_rev m s4 = Ok (e, rest) ->
  let len := (if vbc =? 20 then 3 else 2) + (2 ^ m - 1) + e in
  loop_body l (true :: s1) =
  match copy_loop (Z.to_nat len) 0 (out l) (out_pos l)
                  (total_decoded_count l - (field + bias)) with
  | Ok o =>
      Ok (Continue {| out := o;
                      out_pos := out_pos l + len;
                      total_decoded_count := total_decoded_count l + len |},
          rest)
  | Raise x => Raise x
  end.
Proof.
  intros Hk Hvbc Hbias Hfield Hsent Hm Hm12 He len.
  unfold loop_body, bind at 1. cbn [read_bool negb].
  unfold bind at 1. rewrite Hk.
  unfold bind at 1, lift at 1. rewrite Hvbc.
  unfold bind at 1. rewrite Hfield.
  destruct ((vbc =? 20) && (field =? 1048575)) eqn:Es.
  { apply andb_true_iff in Es as [E1 E2].
    apply Z.eqb_eq in E1, E2. tauto. }
  unfold bind at 1, lift at 1. rewrite Hbias.
  unfold bind at 1. rewrite Hm.
  destruct (Z.eqb_spec m 12) as [|_]; [contradiction|].
  unfold bind at 1. rewrite He.
  rewrite Z.shiftl_1_l.
  replace ((if vbc =? 20 then 2 + 1 else 2) + (2 ^ m - 1) + e) with len
    by (subst len; destruct (vbc =? 20); reflexivity).
  unfold bind, lift, ret.
  destruct (copy_loop _ _ _ _ _); reflexivity.
Qed.

(** *** Back-references, the sentinel and the run limit *)

Example decompress_overlap :
  decompress overlap_data 6 = Ok [0xAA; 0xAA; 0xAA; 0xAA; 0xAA; 0xAA].
Proof. vm_compute. reflexivity. Qed.

(** C1.  A back-reference pass of [decompress] (flag bit 1) that reads the
    unary run [k], the offset field [field] in [vbc = (6,9,12,20)[k]] reversed
    bits (not the sentinel), the secondary run [m < 12] and [e = read_rev(m)]
    runs the byte-at-a-time copy of exactly [len = base + (2^m - 1) + e] bytes
    from [pos - (field + (1,65,577,4673)[k])] to [pos], with [base = 3] when
    [vbc = 20] and [base = 2] otherwise; [k] is one of 0, 1, 2, 3.  When the
    source and the destination lie inside the output buffer, byte [pos + i]
    of the result is byte [pos - off + i mod off] of the output before the
    copy (the [off] bytes before [pos] repeated), and no other byte changes.
    With offset 1, length 5 and [0xAA] before [pos], the five bytes written
    are all [0xAA]. *)
Theorem back_reference_copies l s1 k s2 vbc bias field s3 m s4 e rest :
  count_consecutive_ones 3 s1 = Ok (k, s2) ->
  Py.getitem _VALUE_BIT_COUNT k = Ok vbc ->
  Py.getitem _OFFSET_TO_ADD k = Ok bias ->
  read_rev vbc s2 = Ok (field, s3) ->
  ~ (vbc = 20 /\ field = 1048575) ->
  count_consecutive_ones 12 s3 = Ok (m, s4) ->
  m < 12 ->
  read_rev m s4 = Ok (e, rest) ->
  let base := if vbc =? 20 then 3 else 2 in
  let len := base + (2 ^ m - 1) + e in
  let off := field + bias in
  let pos := total_decoded_count l in
  let after o :=
    Ok (Continue {| out := o; out_pos := out_pos l + len;
                    total_decoded_count := pos + len |}, rest) in
  ((k = 0 /\ vbc = 6 /\ bias = 1) \/ (k = 1 /\ vbc = 9 /\ bias = 65) \/
   (k = 2 /\ vbc = 12 /\ bias = 577) \/ (k = 3 /\ vbc = 20 /\ bias = 4673)) /\
  loop_body l (true :: s1) =
    match copy_loop (Z.to_nat len) 0 (out l) (out_pos l) (pos - off) with
    | Ok o => after o
    | Raise x => Raise x
    end /\
  (out_pos l = pos -> off <= pos -> pos + len <= Z.of_nat (length (out l)) ->
   exists o,
     loop_body l (true :: s1) = after o /\
     length o = length (out l) /\
     (forall i, 0 <= i < len ->
        Py.getitem o (pos + i) = Py.getitem (out l) (pos - off + i mod off)) /\
     (forall j, 0 <= j < Z.of_nat (length (out l)) ->
        ~ (pos <= j < pos + len) ->
        Py.getitem o j = Py.getitem (out l) j) /\
     (off = 1 -> len = 5 -> Py.getitem (out l) (pos - 1) = Ok 0xAA ->
      forall i, 0 <= i < 5 -> Py.getitem o (pos + i) = Ok 0xAA)).
Proof.
  intros Hk Hvbc Hbias Hfield Hsent Hm Hm12 He base len off pos after.
  pose proof (count_consecutive_ones_bound 3 _ _ _ ltac:(lia) Hk) as Hk3.
  pose proof (count_consecutive_ones_bound 12 _ _ _ ltac:(lia) Hm) as Hm0.
  pose proof (read_rev_nonneg _ _ _ _ Hfield) as Hf0.
  pose proof (read_rev_nonneg _ _ _ _ He) as He0.
  assert (Hbody : loop_body l (true :: s1) =
                  match copy_loop (Z.to_nat len) 0 (out l) (out_pos l)
                                  (pos - off) with
                  | Ok o => after o
                  | Raise x => Raise x
                  end).
  { assert (Hm12' : m <> 12) by lia.
    exact (loop_body_copy l _ _ _ _ _ _ _ _ _ _ _
             Hk Hvbc Hbias Hfield Hsent Hm Hm12' He). }
  split; [exact (tables_at k vbc bias Hvbc Hbias Hk3)|].
  split; [exact Hbody|].
  intros Hpos Hoff Hfit.
  assert (Hbias1 : 1 <= bias).
  { destruct (tables_at k vbc bias Hvbc Hbias Hk3)
      as [(_ & _ & ->) | [(_ & _ & ->) | [(_ & _ & ->) | (_ & _ & ->)]]];
      lia. }
  assert (Hlen : 2 <= len).
  { pose proof (Z.pow_pos_nonneg 2 m ltac:(lia) ltac:(lia)).
    subst len base. destruct (vbc =? 20); lia. }
  destruct (copy_loop_pattern (out l) pos off len)
    as (o & Hrun & Hlen' & Hcopied & Hkept); try lia.
  exists o. rewrite Hbody, Hpos, Hrun.
  split; [reflexivity|]. split; [exact Hlen'|].
  split; [exact Hcopied|]. split; [exact Hkept|].
  intros Hoff1 Hlen5 Hprev i Hi.
  rewrite Hcopied by lia. rewrite Hoff1, Z.mod_1_r, Z.add_0_r. exact Hprev.
Qed.

(** The pass at [[0xAA; 0; 0; 0; 0; 0]], position 1, over the bits of a copy
    with [k = 0], offset field 0, [m = 2] and [e = 0]: offset 1, length 5. *)
Lemma back_reference_copies_witness :
  let l := {| out := [0xAA; 0; 0; 0; 0; 0]; out_pos := 1;
              total_decoded_count := 1 |} in
  let s4 := [false; false; true] in
  let s3 := [true; true; false] ++ s4 in
  let s2 := [false; false; false; false; false; false] ++ s3 in
  let s1 := false :: s2 in
  count_consecutive_ones 3 s1 = Ok (0, s2) /\
  Py.getitem _VALUE_BIT_COUNT 0 = Ok 6 /\
  Py.getitem _OFFSET_TO_ADD 0 = Ok 1 /\
  read_rev 6 s2 = Ok (0, s3) /\
  ~ (6 = 20 /\ 0 = 1048575) /\
  count_consecutive_ones 12 s3 = Ok (2, s4) /\
  2 < 12 /\
  read_rev 2 s4 = Ok (0, [true]) /\
  exists o,
    loop_body l (true :: s1) =
      Ok (Continue {| out := o; out_pos := 6; total_decoded_count := 6 |},
          [true]) /\
    forall i, 0 <= i < 5 -> Py.getitem o (1 + i) = Ok 0xAA.
Proof.
  intros l s4 s3 s2 s1.
  assert (H1 : count_consecutive_ones 3 s1 = Ok (0, s2)) by reflexivity.
  assert (H2 : Py.getitem _VALUE_BIT_COUNT 0 = Ok 6) by reflexivity.
  assert (H3 : Py.getitem _OFFSET_TO_ADD 0 = Ok 1) by reflexivity.
  assert (H4 : read_rev 6 s2 = Ok (0, s3)) by reflexivity.
  assert (H5 : ~ (6 = 20 /\ 0 = 1048575)) by lia.
  assert (H6 : count_consecutive_ones 12 s3 = Ok (2, s4)) by reflexivity.
  assert (H7 : 2 < 12) by lia.
  assert (H8 : read_rev 2 s4 = Ok (0, [true])) by reflexivity.
  repeat (split; [assumption|]).
  destruct (back_reference_copies l s1 0 s2 6 1 0 s3 2 s4 0 [true]
              H1 H2 H3 H4 H5 H6 H7 H8) as (_ & _ & Hinside).
  destruct Hinside as (o & Hbody & _ & _ & _ & Hsame);
    [reflexivity | simpl; lia | simpl; lia |].
  exists o. split; [exact Hbody|].
  apply Hsame; reflexivity.
Defined.

(** C4.  When the loop of [decompress] reaches a pass whose flag bit is 1,
    whose unary run selects 20 value bits and whose offset field reads
    [0xFFFFF] (so the pass starts with 24 one-bits), that pass breaks out of
    the loop with the locals unchanged, and [decompress] returns the bytes
    produced before it, [out[:total_decoded_count]], whatever bits [rest]
    follow the sentinel. *)
Theorem sentinel_stops data buffer_size l0 s0 l s1 k s2 rest :
  start data buffer_size = Ok (l0, s0) ->
  reaches (l0, s0) (l, true :: s1) ->
  count_consecutive_ones 3 s1 = Ok (k, s2) ->
  Py.getitem _VALUE_BIT_COUNT k = Ok 20 ->
  read_rev 20 s2 = Ok (0xFFFFF, rest) ->
  true :: s1 = replicate 24 true ++ rest /\
  loop_body l (true :: s1) = Ok (Break l, rest) /\
  decompress data buffer_size =
    Ok (Py.slice (out l) 0 (total_decoded_count l)).
Proof.
  intros Hstart Hreach Hk Hvbc Hfield.
  split; [rewrite (sentinel_bits _ _ _ _ Hk Hvbc Hfield); reflexivity|].
  assert (Hbody : loop_body l (true :: s1) = Ok (Break l, rest)).
  { unfold loop_body, bind at 1. cbn [read_bool negb].
    unfold bind at 1. rewrite Hk.
    unfold bind at 1, lift at 1. rewrite Hvbc.
    unfold bind at 1. rewrite Hfield. reflexivity. }
  split; [exact Hbody|].
  rewrite (decompress_reaches _ _ _ _ _ _ Hstart Hreach).
  simpl. rewrite Hbody. reflexivity.
Qed.

(** [overlap_data]: after the literal and the copy, 26 one-bits remain; the
    first 24 are the sentinel. *)
Lemma sentinel_stops_witness :
  let l0 := {| out := replicate 6 0; out_pos := 0;
               total_decoded_count := 0 |} in
  let s0 := [false; false; true; false; true; false; true; false; true;
             true; false; false; false; false; false; false; false;
             true; true; false; false; false] ++ replicate 26 true in
  let l := {| out := replicate 6 0xAA; out_pos := 6;
              total_decoded_count := 6 |} in
  start overlap_data 6 = Ok (l0, s0) /\
  reaches (l0, s0) (l, true :: replicate 25 true) /\
  count_consecutive_ones 3 (replicate 25 true) = Ok (3, replicate 22 true) /\
  Py.getitem _VALUE_BIT_COUNT 3 = Ok 20 /\
  read_rev 20 (replicate 22 true) = Ok (0xFFFFF, [true; true]) /\
  decompress overlap_data 6 = Ok (replicate 6 0xAA).
Proof.
  intros l0 s0 l.
  assert (H1 : start overlap_data 6 = Ok (l0, s0)) by reflexivity.
  assert (H2 : reaches (l0, s0) (l, true :: replicate 25 true)).
  { eapply reaches_pass; [discriminate | vm_compute; reflexivity |].
    eapply reaches_pass; [discriminate | vm_compute; reflexivity |].
    apply reaches_here. }
  assert (H3 : count_consecutive_ones 3 (replicate 25 true)
               = Ok (3, replicate 22 true)) by reflexivity.
  assert (H4 : Py.getitem _VALUE_BIT_COUNT 3 = Ok 20) by reflexivity.
  assert (H5 : read_rev 20 (replicate 22 true) = Ok (0xFFFFF, [true; true]))
    by reflexivity.
  repeat (split; [assumption|]).
  exact (proj2 (proj2 (sentinel_stops overlap_data 6 l0 s0 l _ 3 _ _
                         H1 H2 H3 H4 H5))).
Defined.

(** C5.  When the loop of [decompress] reaches a back-reference pass (flag
    bit 1, offset field not the sentinel) whose secondary unary run is [m]:
    [m] is at most 12; if [m = 12] the pass raises [AssertionError] and so
    does [decompress], no result is returned; if [m < 12] the pass goes on to
    read [e = read_rev(m)] and to copy [base + (2^m - 1) + e] bytes, and
    raises no [AssertionError]. *)
Theorem secondary_run_limit data buffer_size l0 s0 l s1 k s2 vbc field s3 m s4 :
  start data buffer_size = Ok (l0, s0) ->
  reaches (l0, s0) (l, true :: s1) ->
  count_consecutive_ones 3 s1 = Ok (k, s2) ->
  Py.getitem _VALUE_BIT_COUNT k = Ok vbc ->
  read_rev vbc s2 = Ok (field, s3) ->
  ~ (vbc = 20 /\ field = 1048575) ->
  count_consecutive_ones 12 s3 = Ok (m, s4) ->
  0 <= m <= 12 /\
  exists bias,
    Py.getitem _OFFSET_TO_ADD k = Ok bias /\
    if m =? 12 then
      loop_body l (true :: s1) = Raise AssertionError /\
      decompress data buffer_size = Raise AssertionError
    else
      loop_body l (true :: s1) <> Raise AssertionError /\
      loop_body l (true :: s1) =
        match read_rev m s4 with
        | Ok (e, rest) =>
            let extra_length := (2 ^ m - 1) + e in
            let len := (if vbc =? 20 then 3 else 2) + extra_length in
            match copy_loop (Z.to_nat len) 0 (out l) (out_pos l)
                    (total_decoded_count l - (field + bias)) with
            | Ok o =>
                Ok (Continue
                      {| out := o; out_pos := out_pos l + len;
                         total_decoded_count := total_decoded_count l + len |},
                    rest)
            | Raise x => Raise x
            end
        | Raise x => Raise x
        end.
Proof.
  intros Hstart Hreach Hk Hvbc Hfield Hsent Hm.
  pose proof (count_consecutive_ones_bound 3 _ _ _ ltac:(lia) Hk) as Hk3.
  pose proof (count_consecutive_ones_bound 12 _ _ _ ltac:(lia) Hm) as Hm0.
  split; [exact Hm0|].
  destruct (tables_defined k Hk3) as (vbc' & bias & Hvbc' & Hbias).
  exists bias. split; [exact Hbias|].
  destruct (Z.eqb_spec m 12) as [->|Hne].
  - assert (Hbody : loop_body l (true :: s1) = Raise AssertionError).
    { unfold loop_body, bind at 1. cbn [read_bool negb].
      unfold bind at 1. rewrite Hk.
      unfold bind at 1, lift at 1. rewrite Hvbc.
      unfold bind at 1. rewrite Hfield.
      destruct ((vbc =? 20) && (field =? 1048575)) eqn:Es.
      { apply andb_true_iff in Es as [E1 E2].
        apply Z.eqb_eq in E1, E2. tauto. }
      unfold bind at 1, lift at 1. rewrite Hbias.
      unfold bind at 1. rewrite Hm. reflexivity. }
    split; [exact Hbody|].
    rewrite (decompress_reaches _ _ _ _ _ _ Hstart Hreach).
    simpl. rewrite Hbody. reflexivity.
  - destruct (read_rev m s4) as [[e rest]|x] eqn:He.
    + rewrite (loop_body_copy l _ _ _ _ _ _ _ _ _ _ _
                 Hk Hvbc Hbias Hfield Hsent Hm Hne He).
      cbv zeta.
      rewrite (Z.add_assoc (if vbc =? 20 then 3 else 2) (2 ^ m - 1) e).
      destruct (copy_loop _ _ _ _ _) as [o|x] eqn:Hc.
      * split; [discriminate | reflexivity].
      * apply copy_loop_raises in Hc. subst x.
        split; [discriminate | reflexivity].
    + assert (Hx : x <> AssertionError /\
                   loop_body l (true :: s1) = Raise x).
      { split.
        - apply read_rev_raises in He. congruence.
        - unfold loop_body, bind at 1. cbn [read_bool negb].
          unfold bind at 1. rewrite Hk.
          unfold bind at 1, lift at 1. rewrite Hvbc.
          unfold bind at 1. rewrite Hfield.
          destruct ((vbc =? 20) && (field =? 1048575)) eqn:Es.
          { apply andb_true_iff in Es as [E1 E2].
            apply Z.eqb_eq in E1, E2. tauto. }
          unfold bind at 1, lift at 1. rewrite Hbias.
          unfold bind at 1. rewrite Hm.
          destruct (Z.eqb_spec m 12) as [|_]; [contradiction|].
          unfold bind at 1. rewrite He. reflexivity. }
      destruct Hx as [Hx ->]. split; [congruence | reflexivity].
Qed.

Lemma secondary_run_limit_witness :
  let l0 := {| out := replicate 4 0; out_pos := 0;
               total_decoded_count := 0 |} in
  let s4 := [false; false; false; false] in
  let s3 := replicate 12 true ++ s4 in
  let s2 := replicate 6 false ++ s3 in
  let s1 := false :: s2 in
  start corrupt_data 4 = Ok (l0, true :: s1) /\
  reaches (l0, true :: s1) (l0, true :: s1) /\
  count_consecutive_ones 3 s1 = Ok (0, s2) /\
  Py.getitem _VALUE_BIT_COUNT 0 = Ok 6 /\
  read_rev 6 s2 = Ok (0, s3) /\
  ~ (6 = 20 /\ 0 = 1048575) /\
  count_consecutive_ones 12 s3 = Ok (12, s4) /\
  decompress corrupt_data 4 = Raise AssertionError.
Proof.
  intros l0 s4 s3 s2 s1.
  assert (H1 : start corrupt_data 4 = Ok (l0, true :: s1)) by reflexivity.
  assert (H2 : reaches (l0, true :: s1) (l0, true :: s1))
    by apply reaches_here.
  assert (H3 : count_consecutive_ones 3 s1 = Ok (0, s2)) by reflexivity.
  assert (H4 : Py.getitem _VALUE_BIT_COUNT 0 = Ok 6) by reflexivity.
  assert (H5 : read_rev 6 s2 = Ok (0, s3)) by reflexivity.
  assert (H6 : ~ (6 = 20 /\ 0 = 1048575)) by lia.
  assert (H7 : count_consecutive_ones 12 s3 = Ok (12, s4)) by reflexivity.
  repeat (split; [assumption|]).
  destruct (secondary_run_limit corrupt_data 4 l0 _ l0 s1 0 s2 6 0 s3 12 s4
              H1 H2 H3 H4 H5 H6 H7) as (_ & bias & _ & Hfail).
  exact (proj2 Hfail).
Defined.

(** *** Image reconstruction *)

Lemma rows_length h : forall w a, length (Np.rows h w a) = h.
Proof. induction h as [|h IH]; intros w a; simpl; [|rewrite IH]; reflexivity. Qed.

Lemma rows_lookup h : forall w a r,
  (r < h)%nat -> Np.rows h w a !! r = Some (take w (drop (r * w) a)).
Proof.
  induction h as [|h IH]; intros w a r Hr; [lia|].
  destruct r as [|r]; simpl; [reflexivity|].
  rewrite IH by lia. rewrite drop_drop. reflexivity.
Qed.

Lemma slice_in_range {A} (l : list A) lo hi :
  0 <= lo <= hi -> hi <= Z.of_nat (length l) ->
  Py.slice l lo hi = take (Z.to_nat (hi - lo)) (drop (Z.to_nat lo) l).
Proof.
  intros Hlo Hhi. unfold Py.slice, Py.clamp.
  destruct (Z.ltb_spec lo 0), (Z.ltb_spec hi 0); try lia.
  rewrite !Z.min_l by lia. reflexivity.
Qed.

Lemma take_drop_take {A} (l : list A) w k n :
  (k + w <= n)%nat -> take w (drop k (take n l)) = take w (drop k l).
Proof.
  intros H. apply list_eq. intros i.
  destruct (decide (i < w)%nat) as [Hi|Hi].
  - rewrite !lookup_take_lt, !lookup_drop by lia.
    rewrite lookup_take_lt by lia. reflexivity.
  - rewrite !lookup_take_ge by lia. reflexivity.
Qed.

Lemma spec_stride_aligned w : 0 <= w -> w mod 4 = 0 -> spec_stride w = w.
Proof.
  intros Hw Hmod. unfold spec_stride.
  change 3 with (Z.ones 2) at 2.
  rewrite <- Z.ldiff_land, Z.ldiff_ones_r by lia.
  rewrite Z.shiftr_div_pow2, Z.shiftl_mul_pow2 by lia.
  change (2 ^ 2) with 4.
  pose proof (Z.div_mod w 4 ltac:(lia)) as Hdm. rewrite Hmod in Hdm.
  replace (w + 3) with (3 + w / 4 * 4) by lia.
  rewrite Z.div_add by lia. change (3 / 4) with 0. lia.
Qed.

(** The bytes that are reshaped: the first [w * h] of the stream. *)
Lemma truncated_stream (bytes : list Z) e :
  0 <= e <= Z.of_nat (length bytes) ->
  (if Z.of_nat (length bytes) >? e then Py.slice bytes 0 e else bytes)
  = take (Z.to_nat e) bytes.
Proof.
  intros He. destruct (Z.gtb_spec (Z.of_nat (length bytes)) e).
  - rewrite slice_in_range by lia. rewrite Z.sub_0_r. reflexivity.
  - rewrite take_ge by lia. reflexivity.
Qed.

Lemma flipped_row (bytes : list Z) w h r :
  0 <= w -> 0 <= r < h -> w * h <= Z.of_nat (length bytes) ->
  Np.flip0 (Np.rows (Z.to_nat h) (Z.to_nat w) (take (Z.to_nat (w * h)) bytes))
    !! Z.to_nat r
  = Some (Py.slice bytes ((h - 1 - r) * w) ((h - 1 - r) * w + w)).
Proof.
  intros Hw Hr Hfit. unfold Np.flip0.
  rewrite reverse_lookup by (rewrite rows_length; lia).
  rewrite rows_length, rows_lookup by lia.
  assert (Hk : (Z.to_nat h - S (Z.to_nat r))%nat = Z.to_nat (h - 1 - r))
    by lia.
  rewrite Hk.
  assert (Hmul : (Z.to_nat (h - 1 - r) * Z.to_nat w)%nat
                 = Z.to_nat ((h - 1 - r) * w)) by nia.
  rewrite Hmul.
  assert (Hend : (h - 1 - r) * w + w <= w * h) by nia.
  assert (Hlo : 0 <= (h - 1 - r) * w) by nia.
  rewrite take_drop_take by lia.
  rewrite slice_in_range by lia.
  f_equal. f_equal. lia.
Qed.

(** C2 as the specification states it fails.  With [width = 1],
    [height = 2] the decompressed stream is two rows padded to four bytes,
    [1 0 0 0] and [2 0 0 0].  The specification's reconstruction is
    [[2]; [1]]; the code keeps the first [1 * 2] bytes, [1 0], and answers
    [[0]; [1]], on the compressed and on the uncompressed path.  And with
    [width = 256] the output bound that the code computes is 0, not 256: the
    row that decompresses within the specification's bound does not
    decompress within the code's. *)
Lemma paletted_image_stride_counterexample :
  decompress padded_rows_data (spec_stride 1 * 2) = Ok [1; 0; 0; 0; 2; 0; 0; 0]
  /\ spec_image [1; 0; 0; 0; 2; 0; 0; 0] 1 2 = [[2]; [1]]
  /\ decompress_paletted_image padded_rows_data (1, 2) true 0 = Ok [[0]; [1]]
  /\ decompress_paletted_image [1; 0; 0; 0; 2; 0; 0; 0] (1, 2) false 0
     = Ok [[0]; [1]]
  /\ Ok [[0]; [1]] <> Ok (spec_image [1; 0; 0; 0; 2; 0; 0; 0] 1 2)
  /\ spec_stride 256 * 1 = 256
  /\ Z.land (256 + 3) 0xfc * 1 = 0
  /\ decompress wide_row_data (spec_stride 256 * 1) = Ok (replicate 256 0)
  /\ decompress_paletted_image wide_row_data (256, 1) true 0
     = Raise IndexError.
Proof.
  repeat split; try (vm_compute; reflexivity).
  vm_compute. discriminate.
Qed.

(** C2, amended.  With [w = width + extra_width], [decompress_paletted_image]
    takes the decompressed bytes (or, on the uncompressed path, the raw
    bytes), keeps the first [w * height] of them, reads these as [height]
    rows of [w] bytes (stride [w]: no padding is skipped between rows) and
    flips the rows: output row [r] is bytes
    [(height-1-r) * w .. (height-r) * w) of the stream.  With fewer than
    [w * height] bytes the reshape fails.  When [w] is a multiple of 4 the
    stride [w] is the aligned stride and the result is the specification's
    reconstruction. *)
Theorem paletted_image_rows
  (data : list Z) (width height : Z) (compressed : bool) (extra_width : Z)
  (bytes : list Z) :
  let w := width + extra_width in
  0 <= w -> 0 <= height ->
  (if compressed then decompress data (Z.land (w + 3) 0xfc * height)
   else Ok data) = Ok bytes ->
  if w * height <=? Z.of_nat (length bytes) then
    exists img,
      decompress_paletted_image data (width, height) compressed extra_width
        = Ok img /\
      Z.of_nat (length img) = height /\
      (forall r, 0 <= r < height ->
         img !! Z.to_nat r =
         Some (Py.slice bytes ((height - 1 - r) * w) ((height - r) * w))) /\
      (w mod 4 = 0 -> img = spec_image bytes w height)
  else
    decompress_paletted_image data (width, height) compressed extra_width
      = Raise ValueError.
Proof.
  intros w Hw Hh Hsrc.
  unfold decompress_paletted_image. cbn [fst snd]. fold w. rewrite Hsrc.
  destruct (Z.leb_spec (w * height) (Z.of_nat (length bytes))) as [Hfit|Hshort].
  - assert (He : 0 <= w * height) by nia.
    rewrite truncated_stream by lia.
    unfold Np.reshape.
    destruct (Z.ltb_spec height 0), (Z.ltb_spec w 0); try lia. cbn [orb].
    rewrite length_take.
    destruct (Z.eqb_spec (Z.of_nat (Z.to_nat (w * height)
                                     `min` length bytes)) (height * w));
      [|lia].
    eexists. split; [reflexivity|].
    split; [unfold Np.flip0; rewrite length_reverse, rows_length; lia|].
    split.
    + intros r Hr. rewrite flipped_row by lia. f_equal. f_equal. lia.
    + intros Hmod. apply list_eq. intros i.
      unfold spec_image. rewrite list_lookup_fmap.
      destruct (decide (i < Z.to_nat height)%nat) as [Hi|Hi].
      * rewrite lookup_seqZ_lt by lia. cbn [fmap option_fmap option_map].
        rewrite spec_stride_aligned by assumption.
        replace i with (Z.to_nat (Z.of_nat i)) at 1 by lia.
        rewrite flipped_row by lia. rewrite Z.add_0_l. reflexivity.
      * rewrite lookup_seqZ_ge by lia. cbn.
        apply lookup_ge_None.
        unfold Np.flip0. rewrite length_reverse, rows_length. lia.
  - destruct (Z.gtb_spec (Z.of_nat (length bytes)) (w * height)); [lia|].
    unfold Np.reshape.
    destruct (Z.ltb_spec height 0), (Z.ltb_spec w 0); try lia. cbn [orb].
    destruct (Z.eqb_spec (Z.of_nat (length bytes)) (height * w)); [lia|].
    reflexivity.
Qed.

(** The stream of [padded_rows_data] as a 4 x 2 image: the second row on
    top. *)
Lemma paletted_image_rows_witness :
  0 <= 4 + 0 /\ 0 <= 2 /\
  (if true then decompress padded_rows_data (Z.land (4 + 0 + 3) 0xfc * 2)
   else Ok padded_rows_data) = Ok [1; 0; 0; 0; 2; 0; 0; 0] /\
  decompress_paletted_image padded_rows_data (4, 2) true 0
  = Ok [[2; 0; 0; 0]; [1; 0; 0; 0]].
Proof.
  assert (H1 : 0 <= 4 + 0) by lia.
  assert (H2 : 0 <= 2) by lia.
  assert (H3 : (if true
                then decompress padded_rows_data (Z.land (4 + 0 + 3) 0xfc * 2)
                else Ok padded_rows_data) = Ok [1; 0; 0; 0; 2; 0; 0; 0])
    by (vm_compute; reflexivity).
  repeat (split; [assumption|]).
  pose proof (paletted_image_rows padded_rows_data 4 2 true 0
                [1; 0; 0; 0; 2; 0; 0; 0] H1 H2 H3) as Himg.
  cbv zeta in Himg.
  destruct Himg as (img & Hrun & _ & _ & Hspec).
  rewrite Hrun, (Hspec eq_refl). reflexivity.
Defined.

(** *** Branch selection *)

Lemma cumulative_cons b branches i :
  cumulative (b :: branches) (S i) = prob_percent b + cumulative branches i.
Proof. reflexivity. Qed.

Lemma pick_loop_spec branches : forall acc v,
  match pick_loop branches acc v with
  | Some t =>
      exists i b,
        branches !! i = Some b /\ t = jump_target_idx b /\
        v < acc + cumulative branches (S i) /\
        forall j, (j < i)%nat -> acc + cumulative branches (S j) <= v
  | None =>
      forall j, (j < length branches)%nat ->
                acc + cumulative branches (S j) <= v
  end.
Proof.
  induction branches as [|b branches IH]; intros acc v; simpl.
  - intros j Hj. lia.
  - destruct (Z.ltb_spec v (acc + prob_percent b)) as [Hlt|Hge].
    + exists 0%nat, b. repeat split.
      * rewrite cumulative_cons. unfold cumulative. simpl. lia.
      * intros j Hj. lia.
    + specialize (IH (acc + prob_percent b) v).
      destruct (pick_loop branches (acc + prob_percent b) v) as [t|].
      * destruct IH as (i & b' & Hi & Ht & Hlt & Hbefore).
        exists (S i), b'. repeat split; try assumption.
        -- rewrite cumulative_cons. lia.
        -- intros [|j] Hj.
           ++ rewrite cumulative_cons. unfold cumulative. simpl. lia.
           ++ rewrite cumulative_cons. specialize (Hbefore j ltac:(lia)). lia.
      * intros [|j] Hj.
        -- rewrite cumulative_cons. unfold cumulative. simpl. lia.
        -- rewrite cumulative_cons. specialize (IH j ltac:(lia)). lia.
Qed.

(** C6.  [pick_jump_destination] returns the target of the first branch, in
    declared order, whose cumulative probability exceeds the draw [v], and
    [None] when no cumulative probability exceeds it, in which case [__play]
    advances to [frame_idx + 1]; a returned target becomes the next frame
    index.  On branches [(3,30); (7,40)] the draws 10, 35 and 75 give 3, 7
    and [None]. *)
Theorem pick_jump_destination_first_exceeding (frame : FrameInfo) (v idx : Z) :
  match pick_jump_destination frame v with
  | Some t =>
      (exists i b,
         branch_infos frame !! i = Some b /\ t = jump_target_idx b /\
         v < cumulative (branch_infos frame) (S i) /\
         forall j, (j < i)%nat -> cumulative (branch_infos frame) (S j) <= v)
      /\ next_frame_idx frame idx v = t
  | None =>
      (forall j, (j < length (branch_infos frame))%nat ->
                 cumulative (branch_infos frame) (S j) <= v)
      /\ next_frame_idx frame idx v = idx + 1
  end /\
  pick_jump_destination example_frame 10 = Some 3 /\
  pick_jump_destination example_frame 35 = Some 7 /\
  pick_jump_destination example_frame 75 = None.
Proof.
  split; [|repeat split; reflexivity].
  unfold next_frame_idx, pick_jump_destination.
  pose proof (pick_loop_spec (branch_infos frame) 0 v) as H.
  destruct (pick_loop (branch_infos frame) 0 v) as [t|].
  - split; [|reflexivity].
    destruct H as (i & b & Hi & Ht & Hlt & Hbefore).
    exists i, b. split; [exact Hi|]. split; [exact Ht|]. split; [lia|].
    intros j Hj. specialize (Hbefore j Hj). lia.
  - split; [|reflexivity].
    intros j Hj. specialize (H j Hj). lia.
Qed.

(** *** The palette *)

(** The palette rows before the transparent row is cleared: each source row
    with its first and third byte exchanged and 255 in the fourth place. *)
Lemma reordered_row (palette : list (list Z)) i b g r a :
  palette !! i = Some [b; g; r; a] ->
  set_column
    (set_column (set_column (full_like palette 255) 0 (column palette 2))
                1 (column palette 1))
    2 (column palette 0) !! i = Some [r; g; b; 255].
Proof.
  intros Hrow. unfold set_column, column, full_like.
  repeat (rewrite lookup_zip_with || rewrite list_lookup_fmap).
  rewrite Hrow. reflexivity.
Qed.

Lemma reordered_length (palette : list (list Z)) :
  length (set_column
            (set_column (set_column (full_like palette 255) 0
                                    (column palette 2))
                        1 (column palette 1))
            2 (column palette 0)) = length palette.
Proof.
  unfold set_column, column, full_like.
  repeat (rewrite length_zip_with || rewrite length_fmap). lia.
Qed.

(** C7 as the specification states it fails: the row at the transparency
    index does not keep its colour.  For the palette [(1,2,3), (4,5,6)] in
    BGR order and transparency index 0, row 0 is stored as [0,0,0,0], not
    as [3,2,1,0]. *)
Lemma transparent_row_counterexample :
  palette_of_bytes [1; 2; 3; 0; 4; 5; 6; 0] 2 0
  = Ok [[0; 0; 0; 0]; [6; 5; 4; 255]]
  /\ Py.getitem [[0; 0; 0; 0]; [6; 5; 4; 255]] 0 <> Ok [3; 2; 1; 0].
Proof. split; [vm_compute; reflexivity | vm_compute; discriminate]. Qed.

(** C7, amended.  For a palette of [n] four-byte entries and a transparency
    index [t] that is a row index, the stored palette has [n] rows; a row
    [i] other than [t] is the source entry's first three bytes reordered
    from BGR to RGB followed by alpha 255; row [t] is all zero: red, green,
    blue and alpha. *)
Theorem palette_rows (raw : list Z) (n t : Z) :
  Z.of_nat (length raw) = 4 * n ->
  0 <= t < n ->
  exists pal,
    palette_of_bytes raw n t = Ok pal /\
    Z.of_nat (length pal) = n /\
    forall i b g r a,
      0 <= i < n ->
      Py.slice raw (4 * i) (4 * i + 4) = [b; g; r; a] ->
      Py.getitem pal i = Ok (if i =? t then [0; 0; 0; 0] else [r; g; b; 255]).
Proof.
  intros Hlen Ht. unfold palette_of_bytes, Np.reshape.
  destruct (Z.ltb_spec n 0); [lia|]. cbn [orb Z.ltb Z.compare].
  destruct (Z.eqb_spec (Z.of_nat (length raw)) (n * 4)); [|lia].
  set (palette := Np.rows (Z.to_nat n) (Z.to_nat 4) raw).
  set (stored := set_column _ 2 _).
  assert (Hstored : length stored = Z.to_nat n).
  { subst stored. rewrite reordered_length. apply rows_length. }
  assert (Hsource : forall i b g r a,
             0 <= i < n ->
             Py.slice raw (4 * i) (4 * i + 4) = [b; g; r; a] ->
             stored !! Z.to_nat i = Some [r; g; b; 255]).
  { intros i b g r a Hi Hslice. subst stored.
    apply (reordered_row _ _ b g r a).
    subst palette. rewrite rows_lookup by lia.
    rewrite slice_in_range in Hslice by lia.
    rewrite <- Hslice. f_equal. f_equal; [lia|]. f_equal. lia. }
  unfold set_row.
  destruct (lookup_lt_is_Some_2 stored (Z.to_nat t)) as [row Hrow]; [lia|].
  rewrite (proj2 (getitem_in_range stored t row ltac:(lia)) Hrow).
  rewrite setitem_in_range by lia.
  eexists. split; [reflexivity|].
  split; [rewrite length_insert; lia|].
  intros i b g r a Hi Hslice.
  apply getitem_in_range; [rewrite length_insert; lia|].
  destruct (Z.eqb_spec i t) as [->|Hne].
  - rewrite list_lookup_insert_eq by lia.
    rewrite (Hsource t b g r a Hi Hslice) in Hrow.
    injection Hrow as <-. reflexivity.
  - rewrite list_lookup_insert_ne by lia. eapply Hsource; eauto.
Qed.

Lemma palette_rows_witness :
  Z.of_nat (length [1; 2; 3; 0; 4; 5; 6; 0]) = 4 * 2 /\
  0 <= 0 < 2 /\
  exists pal,
    palette_of_bytes [1; 2; 3; 0; 4; 5; 6; 0] 2 0 = Ok pal /\
    Py.getitem pal 0 = Ok [0; 0; 0; 0] /\
    Py.getitem pal 1 = Ok [6; 5; 4; 255].
Proof.
  assert (H1 : Z.of_nat (length [1; 2; 3; 0; 4; 5; 6; 0]) = 4 * 2)
    by reflexivity.
  assert (H2 : 0 <= 0 < 2) by lia.
  split; [exact H1|]. split; [exact H2|].
  destruct (palette_rows [1; 2; 3; 0; 4; 5; 6; 0] 2 0 H1 H2)
    as (pal & Hrun & _ & Hrows).
  exists pal. split; [exact Hrun|]. split.
  - apply (Hrows 0 1 2 3 0); [lia | reflexivity].
  - apply (Hrows 1 4 5 6 0); [lia | reflexivity].
Defined.

(** *** Views *)

Lemma memoryview_of_ok buf : view_ok (memoryview_of buf).
Proof. unfold view_ok, memoryview_of. simpl. lia. Qed.

Lemma mv_bytes_ok v :
  view_ok v ->
  mv_bytes v = take (Z.to_nat (mv_stop v - mv_start v))
                    (drop (Z.to_nat (mv_start v)) (mv_obj v)).
Proof. intros (H1 & H2 & H3). unfold mv_bytes. apply slice_in_range; lia. Qed.

Lemma mv_len_ok v : view_ok v -> mv_len v = mv_stop v - mv_start v.
Proof.
  intros Hv. unfold mv_len. rewrite mv_bytes_ok by exact Hv.
  destruct Hv as (H1 & H2 & H3). rewrite length_take, length_drop.
  lia.
Qed.

Lemma clamp_range len i : 0 <= len -> 0 <= Py.clamp len i <= len.
Proof. intros Hlen. unfold Py.clamp. destruct (Z.ltb_spec i 0); lia. Qed.

Lemma mv_slice_ok v lo hi : view_ok v -> view_ok (mv_slice v lo hi).
Proof.
  intros Hv. pose proof (mv_len_ok v Hv) as Hlen.
  destruct Hv as (H1 & H2 & H3). unfold view_ok, mv_slice. simpl.
  pose proof (clamp_range (mv_len v) lo ltac:(lia)).
  pose proof (clamp_range (mv_len v) hi ltac:(lia)). lia.
Qed.

Lemma mv_slice_bytes v lo hi :
  view_ok v -> mv_bytes (mv_slice v lo hi) = Py.slice (mv_bytes v) lo hi.
Proof.
  intros Hv. rewrite (mv_bytes_ok _ (mv_slice_ok v lo hi Hv)).
  pose proof (mv_len_ok v Hv) as Hlen.
  unfold Py.slice. fold (mv_len v).
  pose proof (clamp_range (mv_len v) lo ltac:(destruct Hv; lia)) as Ha.
  pose proof (clamp_range (mv_len v) hi ltac:(destruct Hv; lia)) as Hb.
  set (a := Py.clamp (mv_len v) lo) in *.
  set (b := Py.clamp (mv_len v) hi) in *.
  rewrite (mv_bytes_ok v Hv). destruct Hv as (H1 & H2 & H3).
  unfold mv_slice. simpl. fold a b.
  replace (Z.to_nat (mv_start v + Z.max a b - (mv_start v + a)))
    with (Z.to_nat (b - a)) by lia.
  rewrite take_drop_take by lia. rewrite drop_drop.
  f_equal. f_equal. lia.
Qed.

Lemma mv_slice_window v lo hi :
  view_ok v -> 0 <= lo <= hi -> hi <= mv_len v ->
  mv_start (mv_slice v lo hi) = mv_start v + lo /\
  mv_stop (mv_slice v lo hi) = mv_start v + hi.
Proof.
  intros Hv Hlo Hhi. unfold mv_slice, Py.clamp. simpl.
  destruct (Z.ltb_spec lo 0), (Z.ltb_spec hi 0); lia.
Qed.

Lemma bytes_ok_view v : bytes_ok (mv_obj v) -> bytes_ok (mv_bytes v).
Proof.
  intros H. unfold mv_bytes, Py.slice. apply Forall_take, Forall_drop, H.
Qed.

Lemma from_little_endian_nonneg b : bytes_ok b -> 0 <= from_little_endian b.
Proof. induction 1; simpl; lia. Qed.

Lemma from_little_endian_bound b :
  bytes_ok b -> from_little_endian b < 256 ^ Z.of_nat (length b).
Proof.
  induction 1 as [|x b Hx Hb IH]; [reflexivity|].
  cbn [from_little_endian length].
  rewrite Nat2Z.inj_succ, Z.pow_succ_r by lia. lia.
Qed.

(** *** Reading integers *)

Lemma read_bytes_eq length self :
  Buffer.read_bytes length self =
  Ok (mv_slice (Buffer.mv self) (Buffer.pos self) (Buffer.pos self + length),
      Buffer.set_pos self (Buffer.pos self + length)).
Proof. reflexivity. Qed.

Lemma read_integer_eq length signed self :
  Buffer.read_integer length signed self =
  Ok (int_from_bytes
        (mv_bytes (mv_slice (Buffer.mv self) (Buffer.pos self)
                            (Buffer.pos self + length))) signed,
      Buffer.set_pos self (Buffer.pos self + length)).
Proof. reflexivity. Qed.

Lemma read_ulong_nonneg self x self' :
  bytes_ok (mv_obj (Buffer.mv self)) ->
  Buffer.read_ulong self = Ok (x, self') ->
  0 <= x /\ self' = Buffer.set_pos self (Buffer.pos self + 4).
Proof.
  intros Hb H. unfold Buffer.read_ulong in H. rewrite read_integer_eq in H.
  injection H as <- <-. split; [|reflexivity].
  unfold int_from_bytes. cbn [andb].
  apply from_little_endian_nonneg, bytes_ok_view. exact Hb.
Qed.

(** *** [Buffer.locator] *)

(** C3.  Let the cursor of [self] hold the two unsigned values [address] and
    [size].  If [address + size] exceeds the length of the root view,
    [locator] raises [IndexError]; otherwise it returns a new [Buffer] at
    position 0 whose view is the window [address, address + size) of the
    root: the same underlying object (nothing is copied), inside the root's
    window, showing exactly the root's bytes [address .. address + size). *)
Theorem locator_bounds self address size self1 self2 :
  view_ok (Buffer._root self) ->
  bytes_ok (mv_obj (Buffer.mv self)) ->
  Buffer.read_ulong self = Ok (address, self1) ->
  Buffer.read_ulong self1 = Ok (size, self2) ->
  let root := Buffer._root self in
  if address + size >? mv_len root then
    Buffer.locator true self = Raise IndexError
  else
    exists b,
      Buffer.locator true self = Ok (b, self2) /\
      Buffer._root b = root /\
      Buffer._abs_offset b = address /\
      Buffer.pos b = 0 /\
      mv_obj (Buffer.mv b) = mv_obj root /\
      mv_start (Buffer.mv b) = mv_start root + address /\
      mv_stop (Buffer.mv b) = mv_start root + address + size /\
      mv_start root <= mv_start (Buffer.mv b) /\
      mv_stop (Buffer.mv b) <= mv_stop root /\
      mv_bytes (Buffer.mv b)
        = Py.slice (mv_bytes root) address (address + size) /\
      mv_len (Buffer.mv b) = size.
Proof.
  intros Hroot Hbytes Ha Hs root.
  pose proof (read_ulong_nonneg _ _ _ Hbytes Ha) as [Ha0 ->].
  pose proof (read_ulong_nonneg (Buffer.set_pos self _) _ _ Hbytes Hs)
    as [Hs0 Hself2].
  assert (Hrun : Buffer.locator true self =
                 if address + size >? mv_len root then Raise IndexError
                 else Ok (Buffer.__init__
                            (mv_slice root address (address + size))
                            root address, self2)).
  { unfold Buffer.locator, bind. rewrite Ha, Hs. subst self2. reflexivity. }
  rewrite Hrun.
  destruct (Z.gtb_spec (address + size) (mv_len root)) as [Hout|Hin];
    [reflexivity|].
  eexists. split; [reflexivity|]. cbn [Buffer._root Buffer._abs_offset
    Buffer.pos Buffer.mv Buffer.__init__].
  destruct (mv_slice_window root address (address + size) Hroot)
    as [Hstart Hstop]; [lia | lia |].
  pose proof (mv_len_ok root Hroot) as Hlen.
  repeat (split; [first [reflexivity | lia]|]).
  split; [apply mv_slice_bytes; exact Hroot|].
  rewrite mv_len_ok by (apply mv_slice_ok; exact Hroot). lia.
Qed.

Lemma locator_bounds_witness :
  let self := buffer_of located_file in
  let self1 := Buffer.set_pos self 4 in
  let self2 := Buffer.set_pos self 8 in
  view_ok (Buffer._root self) /\
  bytes_ok (mv_obj (Buffer.mv self)) /\
  Buffer.read_ulong self = Ok (8, self1) /\
  Buffer.read_ulong self1 = Ok (4, self2) /\
  exists b,
    Buffer.locator true self = Ok (b, self2) /\
    mv_obj (Buffer.mv b) = located_file /\
    mv_bytes (Buffer.mv b) = [1; 2; 3; 4].
Proof.
  intros self self1 self2.
  assert (H1 : view_ok (Buffer._root self)) by apply memoryview_of_ok.
  assert (H2 : bytes_ok (mv_obj (Buffer.mv self))).
  { unfold bytes_ok. simpl. repeat constructor; lia. }
  assert (H3 : Buffer.read_ulong self = Ok (8, self1)) by reflexivity.
  assert (H4 : Buffer.read_ulong self1 = Ok (4, self2)) by reflexivity.
  repeat (split; [assumption|]).
  pose proof (locator_bounds self 8 4 self1 self2 H1 H2 H3 H4) as Hloc.
  cbv zeta in Hloc.
  change (8 + 4 >? mv_len (Buffer._root self)) with false in Hloc.
  destruct Hloc as (b & Hrun & _ & _ & _ & Hobj & _ & _ & _ & _ & Hbytes & _).
  exists b. split; [exact Hrun|]. split; [exact Hobj|].
  rewrite Hbytes. reflexivity.
Defined.

(** A locator that points one byte past the end of the file. *)
Example locator_out_of_bounds :
  Buffer.locator true (buffer_of [8; 0; 0; 0; 5; 0; 0; 0; 1; 2; 3; 4])
  = Raise IndexError.
Proof. reflexivity. Qed.

(** *** Reading past the end *)

Lemma slice_past_end {A} (l : list A) lo hi :
  0 <= lo -> Z.of_nat (length l) <= hi ->
  Py.slice l lo hi = drop (Z.to_nat lo) l.
Proof.
  intros Hlo Hhi. unfold Py.slice, Py.clamp.
  destruct (Z.ltb_spec lo 0), (Z.ltb_spec hi 0); try lia.
  rewrite (Z.min_r hi) by lia.
  destruct (Z.le_ge_cases lo (Z.of_nat (length l))).
  - rewrite Z.min_l by lia. apply take_ge. rewrite length_drop. lia.
  - rewrite Z.min_r by lia. rewrite !drop_ge by lia. apply take_nil.
Qed.

(** C10.  Let [pos + length] exceed the size of the view of [self], for a
    read of at least one byte at a position that is not negative.
    [read_bytes] does not raise: it returns the view of the bytes that
    remain from [pos] on, fewer than [length] and none at all once [pos] is
    at or past the end, and moves [pos] on by the full [length].
    [read_integer] decodes these remaining bytes, which gives 0 when none
    remain.  The single-byte [read] raises [IndexError] at or past the end,
    and only there. *)
Theorem read_past_end self length signed :
  view_ok (Buffer.mv self) ->
  0 <= Buffer.pos self ->
  0 < length ->
  Buffer.pos self + length > Buffer.__len__ self ->
  let remaining := drop (Z.to_nat (Buffer.pos self))
                        (mv_bytes (Buffer.mv self)) in
  let self' := Buffer.set_pos self (Buffer.pos self + length) in
  (exists data,
     Buffer.read_bytes length self = Ok (data, self') /\
     mv_bytes data = remaining /\
     mv_len data = Z.max 0 (Buffer.__len__ self - Buffer.pos self) /\
     mv_len data < length) /\
  Buffer.read_integer length signed self
    = Ok (int_from_bytes remaining signed, self') /\
  if Buffer.__len__ self <=? Buffer.pos self then
    remaining = [] /\
    Buffer.read_integer length signed self = Ok (0, self') /\
    Buffer.read self = Raise IndexError
  else
    exists x, Buffer.read self
              = Ok (x, Buffer.set_pos self (Buffer.pos self + 1)).
Proof.
  intros Hv Hpos Hlen Hover remaining self'. unfold Buffer.__len__ in *.
  assert (Hdata : mv_bytes (mv_slice (Buffer.mv self) (Buffer.pos self)
                              (Buffer.pos self + length)) = remaining).
  { rewrite mv_slice_bytes by exact Hv. apply slice_past_end; [lia|].
    fold (mv_len (Buffer.mv self)). lia. }
  assert (Hsize : Z.of_nat (List.length remaining)
                  = Z.max 0 (mv_len (Buffer.mv self) - Buffer.pos self)).
  { subst remaining. rewrite length_drop. unfold mv_len. lia. }
  split; [|split].
  - eexists. split; [apply read_bytes_eq|]. split; [exact Hdata|].
    unfold mv_len at 1 3. rewrite Hdata. fold (mv_len (Buffer.mv self)).
    lia.
  - rewrite read_integer_eq, Hdata. reflexivity.
  - destruct (Z.leb_spec (mv_len (Buffer.mv self)) (Buffer.pos self))
      as [Hend|Hin].
    + assert (Hnil : remaining = []).
      { apply length_zero_iff_nil. lia. }
      split; [exact Hnil|]. split.
      * rewrite read_integer_eq, Hdata, Hnil.
        destruct signed; reflexivity.
      * unfold Buffer.read, mv_getitem, Py.getitem, Py.index.
        fold (mv_len (Buffer.mv self)).
        destruct (Z.ltb_spec (Buffer.pos self) 0); [lia|].
        destruct (Z.leb_spec 0 (Buffer.pos self)); [|lia].
        destruct (Z.ltb_spec (Buffer.pos self) (mv_len (Buffer.mv self)));
          [lia | reflexivity].
    + unfold Buffer.read, mv_getitem.
      destruct (lookup_lt_is_Some_2 (mv_bytes (Buffer.mv self))
                  (Z.to_nat (Buffer.pos self))) as [x Hx];
        [unfold mv_len in Hin; lia|].
      assert (Hrange : 0 <= Buffer.pos self
                       < Z.of_nat (List.length (mv_bytes (Buffer.mv self))))
        by (unfold mv_len in Hin; lia).
      rewrite (proj2 (getitem_in_range _ _ x Hrange) Hx).
      eauto.
Qed.

(** Three bytes, the cursor on the second, a read of four. *)
Lemma read_past_end_witness :
  let self := Buffer.set_pos (buffer_of [1; 2; 3]) 1 in
  view_ok (Buffer.mv self) /\
  0 <= Buffer.pos self /\
  0 < 4 /\
  Buffer.pos self + 4 > Buffer.__len__ self /\
  Buffer.read_integer 4 false self = Ok (2 + 256 * 3, Buffer.set_pos self 5).
Proof.
  intros self.
  assert (H1 : view_ok (Buffer.mv self)) by apply memoryview_of_ok.
  assert (H2 : 0 <= Buffer.pos self) by (simpl; lia).
  assert (H3 : 0 < 4) by lia.
  assert (H4 : Buffer.pos self + 4 > Buffer.__len__ self) by reflexivity.
  repeat (split; [assumption|]).
  destruct (read_past_end self 4 false H1 H2 H3 H4) as (_ & Hint & _).
  rewrite Hint. reflexivity.
Defined.

(** *** The length guard of [read_list] *)

Lemma slice_length_le {A} (l : list A) lo n :
  0 <= n -> Z.of_nat (length (Py.slice l lo (lo + n))) <= n.
Proof.
  intros Hn. unfold Py.slice, Py.clamp. rewrite length_take.
  destruct (Z.ltb_spec lo 0), (Z.ltb_spec (lo + n) 0); lia.
Qed.

(** A one-byte or two-byte count is below 65536: only a four-byte count can
    trip the guard. *)
Lemma read_count_small c self field self1 :
  c <> Buffer.ulong ->
  view_ok (Buffer.mv self) ->
  bytes_ok (mv_obj (Buffer.mv self)) ->
  Buffer.read_count c self = Ok (field, self1) ->
  0 <= field < 65536.
Proof.
  intros Hc Hv Hb H. pose proof (bytes_ok_view _ Hb) as Hbytes.
  destruct c; [| |contradiction]; cbn [Buffer.read_count] in H.
  - unfold Buffer.read, mv_getitem, Py.getitem in H.
    destruct (Py.index _ _) as [j|]; [|discriminate].
    destruct (mv_bytes (Buffer.mv self) !! j) as [x|] eqn:Hx; [|discriminate].
    injection H as <- _.
    unfold bytes_ok in Hbytes. rewrite Forall_lookup in Hbytes.
    specialize (Hbytes j x Hx). lia.
  - unfold Buffer.read_ushort in H. rewrite read_integer_eq in H.
    injection H as <- _. unfold int_from_bytes. cbn [andb].
    rewrite mv_slice_bytes by exact Hv.
    set (b := Py.slice _ _ _).
    assert (Hok : bytes_ok b).
    { unfold b, Py.slice. apply Forall_take, Forall_drop, Hbytes. }
    pose proof (from_little_endian_nonneg b Hok).
    pose proof (from_little_endian_bound b Hok) as Hlt.
    pose proof (slice_length_le (mv_bytes (Buffer.mv self))
                  (Buffer.pos self) 2 ltac:(lia)) as Hlen. fold b in Hlen.
    assert (256 ^ Z.of_nat (length b) <= 256 ^ 2)
      by (apply Z.pow_le_mono_r; lia).
    change (256 ^ 2) with 65536 in *. lia.
Qed.

(** C8 as the specification states it fails, twice.  A four-byte length
    field of exactly 65536, which is not above the ceiling of 65536, trips
    the guard.  A length field of 65537, which is above it, read with
    [limit = 1] does not: the clamp comes first, and one element is read. *)
Lemma read_list_ceiling_counterexample :
  Buffer.read_count Buffer.ulong (buffer_of [0; 0; 1; 0; 7])
    = Ok (65536, Buffer.set_pos (buffer_of [0; 0; 1; 0; 7]) 4)
  /\ ~ 65536 > 65536
  /\ Buffer.read_list (Buffer.Reader Buffer.read) Buffer.ulong None
       (buffer_of [0; 0; 1; 0; 7]) = Raise ValueError
  /\ Buffer.read_count Buffer.ulong (buffer_of [1; 0; 1; 0; 7])
    = Ok (65537, Buffer.set_pos (buffer_of [1; 0; 1; 0; 7]) 4)
  /\ 65537 > 65536
  /\ Buffer.read_list (Buffer.Reader Buffer.read) Buffer.ulong (Some 1)
       (buffer_of [1; 0; 1; 0; 7])
     = Ok ([7], Buffer.set_pos (buffer_of [1; 0; 1; 0; 7]) 5).
Proof. repeat split; try reflexivity; lia. Qed.

(** C8, amended.  [read_list] decodes the length field and clamps it to
    [limit] when there is one.  If the clamped length is 65536 or more the
    read raises [ValueError] whatever the element reader is, so before any
    element is read; if it is below 65536 the guard does not fire and the
    element reader is run that many times from the position behind the
    length field. *)
Theorem read_list_guard {A} (r : Buffer.elem_reader A) c limit
  self field self1 :
  Buffer.read_count c self = Ok (field, self1) ->
  let length := match limit with
                | Some limit => Z.min limit field
                | None => field
                end in
  Buffer.read_list r c limit self =
  if 65536 <=? length then Raise ValueError
  else repeatM (Z.to_nat length) (Buffer.call r length) self1.
Proof.
  intros Hcount length.
  unfold Buffer.read_list, bind. rewrite Hcount. fold length.
  unfold Buffer._read_list. rewrite Z.geb_leb.
  destruct (65536 <=? length); reflexivity.
Qed.

(** A two-byte count of 2 in front of two one-byte elements. *)
Lemma read_list_guard_witness :
  let self := buffer_of [2; 0; 7; 9] in
  Buffer.read_count Buffer.ushort self = Ok (2, Buffer.set_pos self 2) /\
  Buffer.read_list (Buffer.Reader Buffer.read) Buffer.ushort None self
  = Ok ([7; 9], Buffer.set_pos self 4).
Proof.
  intros self.
  assert (H1 : Buffer.read_count Buffer.ushort self
               = Ok (2, Buffer.set_pos self 2)) by reflexivity.
  split; [exact H1|].
  rewrite (read_list_guard (Buffer.Reader Buffer.read) Buffer.ushort None
             self 2 _ H1).
  reflexivity.
Defined.

(** *** [anim_info] *)

(** C9 as the specification states it fails.  With the outer name "A" and
    the inner name "a", which differ only in letter case, a warning is
    logged; and with both names "a", which do not differ at all, a warning
    is logged as well: the inner name is compared as stored with the outer
    name in upper case. *)
Lemma anim_info_case_counterexample :
  anim_info ascii_upper (buffer_of (anim_record 65 97))
    = Ok ((anim_named 97, [Warning [65] [65]]),
          Buffer.set_pos (buffer_of (anim_record 65 97)) 16)
  /\ ascii_upper [65] = ascii_upper (name (anim_named 97))
  /\ anim_info ascii_upper (buffer_of (anim_record 97 97))
    = Ok ((anim_named 97, [Warning [97] [65]]),
          Buffer.set_pos (buffer_of (anim_record 97 97)) 16).
Proof. repeat split. Qed.

(** C9, amended.  [anim_info] reads the outer name, follows the locator and
    decodes the record from its own view.  Whenever these three steps
    succeed [anim_info] succeeds, with the decoded record, whose name is the
    string at the start of the record's view.  A warning is logged exactly
    when the outer name in upper case is not the inner name as stored; in
    particular none is logged when the two names agree in upper case and
    the inner name is already in upper case. *)
Theorem anim_info_inner_name upper self outer self1 sub self2 info sub' :
  Buffer.read_string self = Ok (outer, self1) ->
  Buffer.locator true self1 = Ok (sub, self2) ->
  AnimInfo__init__ sub = Ok (info, sub') ->
  exists log,
    anim_info upper self = Ok ((info, log), self2) /\
    (exists sub1, Buffer.read_string sub = Ok (name info, sub1)) /\
    (log = [] <-> upper outer = name info) /\
    (log = [] \/ log = [Warning outer (upper outer)]) /\
    (upper outer = upper (name info) -> upper (name info) = name info ->
     log = []).
Proof.
  intros Houter Hloc Hinfo.
  assert (Hname : exists sub1, Buffer.read_string sub = Ok (name info, sub1)).
  { unfold AnimInfo__init__ in Hinfo. bind_inv Hinfo.
    do 3 bind_inv Hinfo. apply ret_Ok in Hinfo as [[= ->] _].
    simpl. eauto. }
  unfold anim_info, bind. rewrite Houter, Hloc, Hinfo.
  destruct (decide (upper outer = name info)) as [Heq|Hne].
  - exists []. repeat split; auto.
  - eexists. split; [reflexivity|]. split; [exact Hname|].
    split; [split; [discriminate | contradiction]|].
    split; [right; reflexivity|].
    intros H1 H2. congruence.
Qed.

(** [anim_record] with both names "A": no warning. *)
Lemma anim_info_inner_name_witness :
  let self := buffer_of (anim_record 65 65) in
  let root := memoryview_of (anim_record 65 65) in
  let sub := Buffer.__init__ (mv_slice root 16 31) root 16 in
  let info := anim_named 65 in
  Buffer.read_string self = Ok ([65], Buffer.set_pos self 8) /\
  Buffer.locator true (Buffer.set_pos self 8)
    = Ok (sub, Buffer.set_pos self 16) /\
  AnimInfo__init__ sub = Ok (info, Buffer.set_pos sub 15) /\
  anim_info ascii_upper self = Ok ((info, []), Buffer.set_pos self 16).
Proof.
  intros self root sub info.
  assert (H1 : Buffer.read_string self = Ok ([65], Buffer.set_pos self 8))
    by reflexivity.
  assert (H2 : Buffer.locator true (Buffer.set_pos self 8)
               = Ok (sub, Buffer.set_pos self 16)) by reflexivity.
  assert (H3 : AnimInfo__init__ sub = Ok (info, Buffer.set_pos sub 15))
    by reflexivity.
  repeat (split; [assumption|]).
  destruct (anim_info_inner_name ascii_upper self _ _ _ _ _ _ H1 H2 H3)
    as (log & Hrun & _ & _ & _ & Hsame).
  rewrite Hrun, (Hsame eq_refl eq_refl). reflexivity.
Defined.
